(** * ComponentBuilder: synchronising a ValueTree with a tree of Components

    A shallow embedding of
    [JUCE/modules/juce_gui_basics/layout/juce_ComponentBuilder.cpp]:
    the helpers of [namespace ComponentBuilderHelpers], the handler registry and
    [ComponentBuilder::updateChildComponents].

    Components are objects with identity, so they live in a store addressed by
    pointers ([nat]); a nullable pointer is an [option nat].  Every function of
    the source that touches a component is a computation over that store.  The
    computation also records a trace of the calls the builder makes (handler
    calls, deletions, z-order calls) and of the assertions that fire, so that
    "nothing was created" or "no z-order call was made" are statements about
    the trace. *)

From stdpp Require Import gmap strings list fin_maps.
From Stdlib Require Import Lia.

(** ** Data model *)

(** [juce::Identifier] and [juce::String]. *)
Abbreviation Identifier := string.

(** A [ValueTree] is a handle on a shared node; the nodes of a document sit in
    an arena and point to their parent and their children.  An invalid tree
    (the default-constructed [ValueTree()]) has no node. *)
Record SharedObject := mkSharedObject {
  so_type : Identifier;
  so_properties : list (Identifier * string);
  so_children : list nat;
  so_parent : option nat
}.

Record ValueTree := mkValueTree {
  arena : gmap nat SharedObject;
  object : option nat
}.

(** A live [Component]: its identifier, its parent and its children, the
    back-most child first and the front-most child last. *)
Record Component := mkComponent {
  componentID : string;
  parentComponent : option nat;
  childComponentList : list nat
}.

(** [ComponentBuilder::TypeHandler]: the type tag, the back-reference to the
    owning builder and the two virtual functions, which act on the component
    store. *)
Record TypeHandler := mkTypeHandler {
  type : Identifier;
  builder : option nat;
  addNewComponentFromState :
    ValueTree → option nat → gmap nat Component → option nat * gmap nat Component;
  updateComponentFromState :
    nat → ValueTree → gmap nat Component → gmap nat Component
}.

(** [ComponentBuilder]: [this] is the address of the builder, [types] the
    [OwnedArray<TypeHandler>] (the builder owns the handlers, so the array
    holds them by value here), [component] the lazily created root. *)
Record ComponentBuilder := mkComponentBuilder {
  this : nat;
  state : ValueTree;
  types : list TypeHandler;
  component : option nat;
  imageProvider : option nat
}.

(** What the builder does to the outside, in order. *)
Inductive Event :=
| AssertionFailure
| AddNewComponent (tag : Identifier) (s : ValueTree) (parent result : option nat)
| UpdateComponent (tag : Identifier) (c : nat) (s : ValueTree)
| DeleteComponent (c : nat)
| ToFront (c : nat)
| ToBehind (c other : nat).

Record World := mkWorld {
  comps : gmap nat Component;
  trace : list Event
}.

(** ** Computations *)

(** A call returns a value and a new world, or dereferences a null or dangling
    pointer, or (for the two recursive helpers, which take fuel) runs out of
    fuel. *)
Inductive Outcome (A : Type) :=
| Returns (a : A) (w : World)
| Crash (w : World)
| OutOfFuel.
Arguments Returns {A} a w.
Arguments Crash {A} w.
Arguments OutOfFuel {A}.

Definition M (A : Type) : Type := World → Outcome A.

Definition ret {A} (a : A) : M A := λ w, Returns a w.

Definition bind {A B} (m : M A) (k : A → M B) : M B :=
  λ w, match m w with
       | Returns a w' => k a w'
       | Crash w' => Crash w'
       | OutOfFuel => OutOfFuel
       end.

Notation "'let*' x := m 'in' k" := (bind m (λ x, k))
  (at level 10, x pattern, m at level 100, k at level 200).
Notation "m ;;; k" := (bind m (λ _, k))
  (at level 100, k at level 200, right associativity).

Definition crash {A} : M A := λ w, Crash w.
Definition diverge {A} : M A := λ _, OutOfFuel.

Definition emit (e : Event) : M unit :=
  λ w, Returns tt (mkWorld (comps w) (trace w ++ [e])).

Definition getComps : M (gmap nat Component) := λ w, Returns (comps w) w.

Definition setComps (h : gmap nat Component) : M unit :=
  λ w, Returns tt (mkWorld h (trace w)).

(** [jassert (cond)]: a failed assertion is reported and execution goes on. *)
Definition jassert (cond : bool) : M unit :=
  if cond then ret tt else emit AssertionFailure.

Definition jassertfalse : M unit := emit AssertionFailure.

(** [*c]: the component behind a pointer. *)
Definition deref (c : nat) : M Component :=
  λ w, match comps w !! c with
       | Some C => Returns C w
       | None => Crash w
       end.

Definition isNotEmpty (s : string) : bool := negb (String.eqb s "").
Definition isEmpty (s : string) : bool := String.eqb s "".

(** ** The ValueTree interface

    [juce::ValueTree] is declared outside this file.  The specification asks
    of the state tree storage: "get type tag; get/set attribute by name;
    enumerate children in order", and a parent back-reference "used purely
    for traversal". *)

(** Modelled from the spec: the node behind a [ValueTree] handle; an invalid
    tree has none. *)
Definition node (v : ValueTree) : option SharedObject :=
  match object v with
  | Some n => arena v !! n
  | None => None
  end.

(** Modelled from the spec: [ValueTree::isValid]. *)
Definition isValid (v : ValueTree) : bool :=
  match node v with Some _ => true | None => false end.

(** Modelled from the spec: [ValueTree::getType], "get type tag"; the empty
    identifier for an invalid tree. *)
Definition getType (v : ValueTree) : Identifier :=
  match node v with Some o => so_type o | None => "" end.

Fixpoint lookupProperty (name : Identifier) (ps : list (Identifier * string)) : string :=
  match ps with
  | [] => ""
  | (k, x) :: ps' => if String.eqb k name then x else lookupProperty name ps'
  end.

(** Modelled from the spec: [ValueTree::operator[]] followed by [toString()],
    "get attribute by name"; the empty string for a missing property. *)
Definition getProperty (v : ValueTree) (name : Identifier) : string :=
  match node v with Some o => lookupProperty name (so_properties o) | None => "" end.

(** Modelled from the spec: [ValueTree::getParent], the parent
    back-reference; an invalid tree for a root. *)
Definition getParent (v : ValueTree) : ValueTree :=
  mkValueTree (arena v) (match node v with Some o => so_parent o | None => None end).

(** Modelled from the spec: [ValueTree::getNumChildren] and
    [ValueTree::getChild], "enumerate children in order". *)
Definition getNumChildren (v : ValueTree) : nat :=
  match node v with Some o => length (so_children o) | None => 0 end.

Definition getChild (v : ValueTree) (i : nat) : ValueTree :=
  mkValueTree (arena v) (match node v with Some o => so_children o !! i | None => None end).

(** ** The Component interface

    [juce::Component] is declared outside this file.  The specification asks
    of the live instance platform: "get/set a stable string identifier;
    enumerate direct children ...; get direct parent; raise-to-front;
    move-behind(sibling); destroy on owner release". *)

(** Modelled from the spec: [Component::setComponentID], "set a stable string
    identifier". *)
Definition setComponentID (c : nat) (newID : string) : M unit :=
  let* C := deref c in
  let* h := getComps in
  setComps (<[c := mkComponent newID (parentComponent C) (childComponentList C)]> h).

Definition setChildren (p : nat) (l : list nat) : M unit :=
  let* P := deref p in
  let* h := getComps in
  setComps (<[p := mkComponent (componentID P) (parentComponent P) l]> h).

Definition without (c : nat) (l : list nat) : list nat :=
  filter (λ x, x ≠ c) l.

Fixpoint insertBefore (c other : nat) (l : list nat) : list nat :=
  match l with
  | [] => []
  | x :: l' => if decide (x = other) then c :: x :: l' else x :: insertBefore c other l'
  end.

(** Modelled from the spec: [Component::toFront], "raise-to-front": the
    component becomes the last child of its parent. *)
Definition toFront (c : nat) : M unit :=
  emit (ToFront c) ;;;
  let* C := deref c in
  match parentComponent C with
  | None => ret tt
  | Some p =>
      let* P := deref p in
      if decide (c ∈ childComponentList P)
      then setChildren p (without c (childComponentList P) ++ [c])
      else ret tt
  end.

(** Modelled from the spec: [Component::toBehind], "move-behind(sibling)": the
    component is placed immediately behind [other] among the children of its
    parent. *)
Definition toBehind (c other : nat) : M unit :=
  emit (ToBehind c other) ;;;
  if decide (c = other) then ret tt else
  let* C := deref c in
  match parentComponent C with
  | None => ret tt
  | Some p =>
      let* P := deref p in
      if decide (c ∈ childComponentList P ∧ other ∈ childComponentList P)
      then setChildren p (insertBefore c other (without c (childComponentList P)))
      else ret tt
  end.

(** Modelled from the spec: the deletion of a [Component], "destroy on owner
    release": the instance is released and leaves its parent's child list.
    What a component class does with its own children when it is destroyed is
    not part of the builder and is not modelled. *)
Definition deleteComponent (c : nat) : M unit :=
  emit (DeleteComponent c) ;;;
  let* C := deref c in
  match parentComponent C with
  | None => ret tt
  | Some p => let* P := deref p in setChildren p (without c (childComponentList P))
  end ;;;
  let* h := getComps in
  setComps (delete c h).

(** Modelled from the spec: the destructor of [OwnedArray<Component>], which
    deletes the objects it still holds, from the last to the first. *)
Fixpoint deleteAllObjects (l : list nat) : M unit :=
  match l with
  | [] => ret tt
  | c :: l' => deleteAllObjects l' ;;; deleteComponent c
  end.

(** The virtual calls, as the builder makes them. *)
Definition callAddNewComponentFromState
    (t : TypeHandler) (s : ValueTree) (parent : option nat) : M (option nat) :=
  let* h := getComps in
  let r := addNewComponentFromState t s parent h in
  setComps r.2 ;;;
  emit (AddNewComponent (type t) s parent r.1) ;;;
  ret r.1.

Definition callUpdateComponentFromState
    (t : TypeHandler) (c : nat) (s : ValueTree) : M unit :=
  let* h := getComps in
  setComps (updateComponentFromState t c s h) ;;;
  emit (UpdateComponent (type t) c s).

(** ** namespace ComponentBuilderHelpers *)

(** [const Identifier ComponentBuilder::idProperty ("id")]. *)
Definition idProperty : Identifier := "id".

(** [state [ComponentBuilder::idProperty].toString()]. *)
Definition getStateId (s : ValueTree) : string := getProperty s idProperty.

(** The loop [for (int i = components.size(); --i >= 0;)]: [i] counts the
    indices still to visit, the index visited is [i - 1]. *)
Fixpoint removeComponentWithID_from (i : nat) (components : list nat) (compId : string)
    : M (option nat * list nat) :=
  match i with
  | 0 => ret (None, components)
  | S j =>
      match components !! j with
      | None => crash
      | Some c =>
          let* C := deref c in
          if String.eqb (componentID C) compId
          then ret (Some c, delete j components)
          else removeComponentWithID_from j components compId
      end
  end.

(** The array is passed by reference: the function returns the pointer found
    (or null) and the array as it leaves it. *)
Definition removeComponentWithID (components : list nat) (compId : string)
    : M (option nat * list nat) :=
  jassert (isNotEmpty compId) ;;;
  removeComponentWithID_from (length components) components compId.

(** The loop [for (auto* child : c.getChildren())] of [findComponentWithID],
    with the recursive call as a parameter. *)
Fixpoint findInChildren (find : nat → M (option nat)) (l : list nat) : M (option nat) :=
  match l with
  | [] => ret None
  | child :: l' =>
      let* found := find child in
      match found with
      | Some f => ret (Some f)
      | None => findInChildren find l'
      end
  end.

Fixpoint findComponentWithID (fuel : nat) (c : nat) (compId : string) : M (option nat) :=
  match fuel with
  | 0 => diverge
  | S fuel' =>
      jassert (isNotEmpty compId) ;;;
      let* C := deref c in
      if String.eqb (componentID C) compId then ret (Some c)
      else findInChildren (λ child, findComponentWithID fuel' child compId)
                          (childComponentList C)
  end.

Definition createNewComponent (t : TypeHandler) (s : ValueTree) (parent : option nat)
    : M nat :=
  let* c := callAddNewComponentFromState t s parent in
  let* ok := match c with
             | None => ret false
             | Some p => let* C := deref p in
                         ret (bool_decide (parentComponent C = parent))
             end in
  jassert ok ;;;
  match c with
  | None => crash
  | Some p => setComponentID p (getStateId s) ;;; ret p
  end.

(** ** ComponentBuilder *)

(** The scan [for (int i = 0; i < types.size(); ++i)] of [getHandlerForState]. *)
Fixpoint firstHandlerOfType (targetType : Identifier) (ts : list TypeHandler)
    : option TypeHandler :=
  match ts with
  | [] => None
  | t :: ts' =>
      if String.eqb (type t) targetType then Some t
      else firstHandlerOfType targetType ts'
  end.

Definition getHandlerForState (b : ComponentBuilder) (s : ValueTree) : option TypeHandler :=
  firstHandlerOfType (getType s) (types b).


Definition createComponent (b : ComponentBuilder) : M (option nat) :=
  jassert (bool_decide (0 < length (types b))) ;;;
  match getHandlerForState b (state b) with
  | Some t =>
      let* c := createNewComponent t (state b) None in
      ret (Some c)
  | None => jassertfalse ;;; ret None
  end.

(** The builder is mutated ([component.reset (...)]), so the call returns the
    builder as it leaves it next to the pointer. *)
Definition getManagedComponent (b : ComponentBuilder) : M (option nat * ComponentBuilder) :=
  match component b with
  | None =>
      let* c := createComponent b in
      ret (c, mkComponentBuilder (this b) (state b) (types b) c (imageProvider b))
  | Some c => ret (Some c, b)
  end.

(** [type] is a nullable pointer.  With a null [type] the first assertion fires
    and the next statement dereferences it. *)
Definition registerTypeHandler (b : ComponentBuilder) (t : option TypeHandler)
    : M ComponentBuilder :=
  jassert (bool_decide (t ≠ None)) ;;;
  match t with
  | None => crash
  | Some h =>
      jassert (bool_decide (builder h = None)) ;;;
      ret (mkComponentBuilder (this b) (state b)
             (types b ++ [mkTypeHandler (type h) (Some (this b))
                            (addNewComponentFromState h) (updateComponentFromState h)])
             (component b) (imageProvider b))
  end.

(** [fuel] bounds the walk to the parents, [searchFuel] the search of the
    component tree. *)
Fixpoint updateComponent (fuel searchFuel : nat) (b : ComponentBuilder) (s : ValueTree)
    : M ComponentBuilder :=
  match fuel with
  | 0 => diverge
  | S fuel' =>
      (* the branch taken when [type == nullptr || uid.isEmpty()] *)
      let updateParent fuel' b' : M ComponentBuilder :=
        if isValid (getParent s)
        then updateComponent fuel' searchFuel b' (getParent s)
        else ret b' in
      let* r := getManagedComponent b in
      let b' := r.2 in
      match r.1 with
      | None => ret b'
      | Some topLevelComp =>
          let t := getHandlerForState b' s in
          let uid := getStateId s in
          match t with
          | Some h =>
              if isEmpty uid
              then updateParent fuel' b'
              else
                let* changedComp := findComponentWithID searchFuel topLevelComp uid in
                match changedComp with
                | Some c => callUpdateComponentFromState h c s ;;; ret b'
                | None => ret b'
                end
          | None => updateParent fuel' b'
          end
      end
  end.


Definition valueTreeChildAdded (fuel searchFuel : nat) (b : ComponentBuilder)
    (tree child : ValueTree) : M ComponentBuilder :=
  updateComponent fuel searchFuel b tree.

Definition valueTreeChildRemoved (fuel searchFuel : nat) (b : ComponentBuilder)
    (tree child : ValueTree) (index : nat) : M ComponentBuilder :=
  updateComponent fuel searchFuel b tree.

Definition valueTreeChildOrderChanged (fuel searchFuel : nat) (b : ComponentBuilder)
    (tree : ValueTree) (oldIndex newIndex : nat) : M ComponentBuilder :=
  updateComponent fuel searchFuel b tree.

Definition valueTreeParentChanged (fuel searchFuel : nat) (b : ComponentBuilder)
    (tree : ValueTree) : M ComponentBuilder :=
  updateComponent fuel searchFuel b tree.

(** *** updateChildComponents *)

(** One turn of the loop over the new child states: the pool
    [existingComponents] and the result [componentsInOrder] go in and out. *)
Definition reconcileChild (b : ComponentBuilder) (parent : nat) (childState : ValueTree)
    (existingComponents componentsInOrder : list nat) : M (list nat * list nat) :=
  let* r := removeComponentWithID existingComponents (getStateId childState) in
  let* c := match r.1 with
            | Some c => ret (Some c)
            | None =>
                match getHandlerForState b childState with
                | Some t =>
                    let* c := createNewComponent t childState (Some parent) in
                    ret (Some c)
                | None => jassertfalse ;;; ret None
                end
            end in
  match c with
  | Some c => ret (r.2, componentsInOrder ++ [c])
  | None => ret (r.2, componentsInOrder)
  end.

Fixpoint reconcileChildren (b : ComponentBuilder) (parent : nat)
    (childStates : list ValueTree) (existingComponents componentsInOrder : list nat)
    : M (list nat * list nat) :=
  match childStates with
  | [] => ret (existingComponents, componentsInOrder)
  | childState :: rest =>
      let* r := reconcileChild b parent childState existingComponents componentsInOrder in
      reconcileChildren b parent rest r.1 r.2
  end.

(** The loop [for (int i = componentsInOrder.size() - 1; --i >= 0;)]: [i]
    counts the indices still to visit. *)
Fixpoint toBehindLoop (componentsInOrder : list nat) (i : nat) : M unit :=
  match i with
  | 0 => ret tt
  | S j =>
      match componentsInOrder !! j, componentsInOrder !! (S j) with
      | Some c, Some next => toBehind c next ;;; toBehindLoop componentsInOrder j
      | _, _ => crash
      end
  end.

Definition zOrderPass (componentsInOrder : list nat) : M unit :=
  match last componentsInOrder with
  | None => ret tt
  | Some l => toFront l ;;; toBehindLoop componentsInOrder (length componentsInOrder - 1)
  end.

(** [children.getChild (i)] for [i] from [0] to [children.getNumChildren()]. *)
Definition childStatesOf (children : ValueTree) : list ValueTree :=
  getChild children <$> seq 0 (getNumChildren children).

Definition updateChildComponents (b : ComponentBuilder) (parent : nat) (children : ValueTree)
    : M unit :=
  let* P := deref parent in
  let existingComponents := childComponentList P in
  let* r := reconcileChildren b parent (childStatesOf children) existingComponents [] in
  deleteAllObjects r.1 ;;;
  zOrderPass r.2.

(** *** The rest of the class *)

(** [ComponentBuilder::ComponentBuilder (const ValueTree& state_)]: no handler,
    no component and no image provider yet.  [address] is the address of the
    new object. *)
Definition newComponentBuilder (address : nat) (state_ : ValueTree) : ComponentBuilder :=
  mkComponentBuilder address state_ [] None None.

(** [void ComponentBuilder::registerStandardComponentTypes()] has an empty
    body. *)
Definition registerStandardComponentTypes (b : ComponentBuilder) : ComponentBuilder := b.

Definition setImageProvider (b : ComponentBuilder) (newImageProvider : option nat)
    : ComponentBuilder :=
  mkComponentBuilder (this b) (state b) (types b) (component b) newImageProvider.

Definition getImageProvider (b : ComponentBuilder) : option nat := imageProvider b.

(** [TypeHandler::TypeHandler (const Identifier& valueTreeType)]: the handler
    starts without a builder.  The two virtual functions come with the
    subclass. *)
Definition newTypeHandler (valueTreeType : Identifier)
    (create : ValueTree → option nat → gmap nat Component → option nat * gmap nat Component)
    (update : nat → ValueTree → gmap nat Component → gmap nat Component) : TypeHandler :=
  mkTypeHandler valueTreeType None create update.

(** [ComponentBuilder* TypeHandler::getBuilder() const]. *)
Definition getBuilder (t : TypeHandler) : M (option nat) :=
  jassert (bool_decide (builder t ≠ None)) ;;;
  ret (builder t).

(** ** Vocabulary of the statements *)

(** The identifier of the component behind a pointer, if the pointer is live. *)
Definition idOf (h : gmap nat Component) (c : nat) : option string :=
  componentID <$> h !! c.

Definition parentOf (h : gmap nat Component) (c : nat) : option (option nat) :=
  parentComponent <$> h !! c.

Definition childrenOf (h : gmap nat Component) (c : nat) : option (list nat) :=
  childComponentList <$> h !! c.

Definition isCreation (e : Event) : bool :=
  match e with AddNewComponent _ _ _ _ => true | _ => false end.

Definition isDestruction (e : Event) : bool :=
  match e with DeleteComponent _ => true | _ => false end.

Definition isUpdate (e : Event) : bool :=
  match e with UpdateComponent _ _ _ => true | _ => false end.

Definition isZOrder (e : Event) : bool :=
  match e with ToFront _ | ToBehind _ _ => true | _ => false end.

Definition isAssertion (e : Event) : bool :=
  match e with AssertionFailure => true | _ => false end.

(** The store with the child list of [p] replaced. *)
Definition withChildren (h : gmap nat Component) (p : nat) (l : list nat)
    : gmap nat Component :=
  match h !! p with
  | Some P => <[p := mkComponent (componentID P) (parentComponent P) l]> h
  | None => h
  end.

(** [l] is the child list of the live component [parent]: no child is listed
    twice, the parent is not its own child and every child is live and points
    back to the parent. *)
Record siblings (h : gmap nat Component) (parent : nat) (l : list nat) : Prop := {
  siblings_children : childrenOf h parent = Some l;
  siblings_NoDup : NoDup l;
  siblings_not_self : parent ∉ l;
  siblings_back : ∀ c, c ∈ l → parentOf h c = Some (Some parent)
}.

(** The calls of the pass on a result list: [toFront] on the last element,
    then [toBehind] on each earlier element and its successor, from the end
    of the list to its start. *)
Definition toBehindCalls (componentsInOrder : list nat) : list Event :=
  zip_with ToBehind componentsInOrder (tail componentsInOrder).

Definition zOrderCalls (componentsInOrder : list nat) : list Event :=
  match last componentsInOrder with
  | None => []
  | Some l => ToFront l :: rev (toBehindCalls componentsInOrder)
  end.

(** The contract: called with a live parent, the handler returns a new
    component (a pointer that was not live before), whose parent is the given
    parent and which it has added to the parent's children; it leaves the
    components that existed before as they were. *)
Definition createsChild (t : TypeHandler) : Prop :=
  ∀ (s : ValueTree) (parent : nat) (h : gmap nat Component) (P : Component),
    h !! parent = Some P →
    ∃ c h' l',
      addNewComponentFromState t s (Some parent) h = (Some c, h') ∧
      h !! c = None ∧
      parentOf h' c = Some (Some parent) ∧
      h' !! parent = Some (mkComponent (componentID P) (parentComponent P) l') ∧
      l' ≡ₚ c :: childComponentList P ∧
      (∀ q, q ≠ parent → is_Some (h !! q) → h' !! q = h !! q).

Definition quiet (e : Event) : Prop := isZOrder e = false ∧ isDestruction e = false.

(** The handler as the builder holds it after registration. *)
Definition attachedTo (b : ComponentBuilder) (h : TypeHandler) : TypeHandler :=
  mkTypeHandler (type h) (Some (this b))
    (addNewComponentFromState h) (updateComponentFromState h).

(** A search that returns leaves the components alone, reports nothing when
    the identifier is not empty, and returns a component that carries the
    identifier. *)
Definition searchResult (compId : string) (w : World) (r : option nat) (w' : World)
    : Prop :=
  comps w' = comps w ∧
  (isNotEmpty compId = true → w' = w) ∧
  (∀ c', r = Some c' → idOf (comps w) c' = Some compId).

(** The handler of a node that maps to a component: the node has a registered
    handler and a non-empty identifier. *)
Definition mappedHandler (b : ComponentBuilder) (s : ValueTree) : option TypeHandler :=
  match getHandlerForState b s with
  | Some h => if isEmpty (getStateId s) then None else Some h
  | None => None
  end.

(** The [k]-th ancestor of a node; the node itself for [k = 0]. *)
Fixpoint ancestor (k : nat) (s : ValueTree) : ValueTree :=
  match k with
  | 0 => s
  | S k' => ancestor k' (getParent s)
  end.

(** The rule of the specification: "if the mutated node itself has no
    handler/id, walk upward to the nearest ancestor with one".  [None] when
    the fuel runs out, [Some None] when the walk leaves the tree. *)
Fixpoint nearestMapped (fuel : nat) (b : ComponentBuilder) (s : ValueTree)
    : option (option (ValueTree * TypeHandler)) :=
  match fuel with
  | 0 => None
  | S fuel' =>
      match mappedHandler b s with
      | Some h => Some (Some (s, h))
      | None =>
          if isValid (getParent s) then nearestMapped fuel' b (getParent s)
          else Some None
      end
  end.

(** The update the specification asks for at a mapped node: the handler's
    update on the live instance that carries the node's identifier. *)
Definition updateMapped (searchFuel : nat) (b : ComponentBuilder) (top : nat)
    (h : TypeHandler) (a : ValueTree) : M ComponentBuilder :=
  let* changedComp := findComponentWithID searchFuel top (getStateId a) in
  match changedComp with
  | Some c => callUpdateComponentFromState h c a ;;; ret b
  | None => ret b
  end.

(** A finite state tree: the parent links go strictly down along a measure. *)
Definition finiteTree (a : gmap nat SharedObject) (depth : nat → nat) : Prop :=
  ∀ n o p, a !! n = Some o → so_parent o = Some p → depth p < depth n.

Definition depthOf (depth : nat → nat) (s : ValueTree) : nat :=
  match object s with Some n => depth n | None => 0 end.

(** A finite component tree: the child links go strictly down along a
    measure. *)
Definition finiteHierarchy (h : gmap nat Component) (height : nat → nat) : Prop :=
  ∀ c C child, h !! c = Some C → child ∈ childComponentList C → height child < height c.

Definition withComponent (b : ComponentBuilder) (c : option nat) : ComponentBuilder :=
  mkComponentBuilder (this b) (state b) (types b) c (imageProvider b).

(** [d] is [c] or lies below [c] in the component tree. *)
Inductive descendant (h : gmap nat Component) : nat → nat → Prop :=
| descendant_self c : descendant h c c
| descendant_child c C child d :
    h !! c = Some C → child ∈ childComponentList C →
    descendant h child d → descendant h c d.

(** The number of handler creation calls and of deletion calls in a trace. *)
Definition creations (evs : list Event) : nat :=
  length (filter (λ e, isCreation e = true) evs).

Definition destructions (evs : list Event) : nat :=
  length (filter (λ e, isDestruction e = true) evs).

(** ** Sample data *)

(** A handler that honours the contract: it allocates an unused pointer,
    makes the component a child of the given parent, in front of the others,
    and its update leaves the components alone. *)
Definition plainCreate (s : ValueTree) (parent : option nat) (h : gmap nat Component)
    : option nat * gmap nat Component :=
  let c := fresh (dom h) in
  let h1 := <[c := mkComponent "" parent []]> h in
  (Some c,
   match parent with
   | Some p =>
       match h !! p with
       | Some P => <[p := mkComponent (componentID P) (parentComponent P)
                            (childComponentList P ++ [c])]> h1
       | None => h1
       end
   | None => h1
   end).

Definition plainUpdate (c : nat) (s : ValueTree) (h : gmap nat Component)
    : gmap nat Component := h.

Definition plainHandler (tag : Identifier) (owner : option nat) : TypeHandler :=
  mkTypeHandler tag owner plainCreate plainUpdate.

(** A handler whose update empties the store; it only serves to tell two
    handlers of one type apart. *)
Definition otherHandler (tag : Identifier) : TypeHandler :=
  mkTypeHandler tag None plainCreate (λ _ _ _, ∅).

(** A document: a root panel with two panels; the left one holds two buttons,
    the right one a gadget (a type without handler), a button and a group
    without identifier that holds an item. *)
Definition sampleArena : gmap nat SharedObject :=
  list_to_map
    [ (0, mkSharedObject "Panel" [("id", "root")] [1; 2] None);
      (1, mkSharedObject "Panel" [("id", "left")] [3; 4] (Some 0));
      (2, mkSharedObject "Panel" [("id", "right")] [6; 5; 7] (Some 0));
      (3, mkSharedObject "Button" [("id", "b1")] [] (Some 1));
      (4, mkSharedObject "Button" [("id", "b2")] [] (Some 1));
      (5, mkSharedObject "Button" [("id", "b3")] [] (Some 2));
      (6, mkSharedObject "Gadget" [("id", "g1")] [] (Some 2));
      (7, mkSharedObject "Group" [] [8] (Some 2));
      (8, mkSharedObject "Item" [("text", "x")] [] (Some 7)) ].

Definition sampleNode (n : nat) : ValueTree := mkValueTree sampleArena (Some n).

Definition sampleDepth (n : nat) : nat := nth n [0; 1; 1; 2; 2; 2; 2; 2; 3] 0.

(** The components of an earlier state of the document: the left panel holds
    the two buttons in the other order. *)
Definition sampleComps : gmap nat Component :=
  list_to_map
    [ (100, mkComponent "root" None [101; 102]);
      (101, mkComponent "left" (Some 100) [103; 104]);
      (102, mkComponent "right" (Some 100) []);
      (103, mkComponent "b2" (Some 101) []);
      (104, mkComponent "b1" (Some 101) []) ].

Definition sampleHeight (c : nat) : nat :=
  match c with 100 => 2 | 101 => 1 | 102 => 1 | _ => 0 end.

Definition sampleWorld : World := mkWorld sampleComps [].
Definition emptyWorld : World := mkWorld ∅ [].

Definition sampleTypes : list TypeHandler :=
  [plainHandler "Panel" (Some 7); plainHandler "Button" (Some 7)].

(** A builder with its root created, one before the root is created, and one
    without handlers. *)
Definition sampleBuilder : ComponentBuilder :=
  mkComponentBuilder 7 (sampleNode 0) sampleTypes (Some 100) None.

Definition freshBuilder : ComponentBuilder :=
  mkComponentBuilder 7 (sampleNode 0) sampleTypes None None.

Definition bareBuilder : ComponentBuilder :=
  mkComponentBuilder 7 (sampleNode 0) [] None None.

(** Two handlers that break the contract: one returns null, the other
    returns a component without parent. *)
Definition nullHandler (tag : Identifier) : TypeHandler :=
  mkTypeHandler tag (Some 7) (λ _ _ h, (None, h)) plainUpdate.

Definition strayHandler (tag : Identifier) : TypeHandler :=
  mkTypeHandler tag (Some 7)
    (λ _ _ h, (Some (fresh (dom h)), <[fresh (dom h) := mkComponent "" None []]> h))
    plainUpdate.

Definition nullBuilder : ComponentBuilder :=
  mkComponentBuilder 7 (sampleNode 0) [nullHandler "Button"] (Some 100) None.

(** The world after a property change on the item of the sample document:
    the update went to the right panel. *)
Definition notifiedWorld : World :=
  mkWorld sampleComps [UpdateComponent "Panel" 102 (sampleNode 2)].

(** The sample builder after one more registration. *)
Definition registeredBuilder : ComponentBuilder :=
  mkComponentBuilder 7 (sampleNode 0)
    (sampleTypes ++ [attachedTo sampleBuilder (otherHandler "Gadget")]) (Some 100) None.

(** * Properties *)

(** ** Running computations *)

Ltac run := unfold bind, emit, deref, getComps, setComps, ret, crash; simpl.

Lemma bind_Returns {A B} (m : M A) (k : A → M B) w a w' :
  m w = Returns a w' → bind m k w = k a w'.
Proof. intros H. unfold bind. by rewrite H. Qed.

Lemma bind_Crash {A B} (m : M A) (k : A → M B) w w' :
  m w = Crash w' → bind m k w = Crash w'.
Proof. intros H. unfold bind. by rewrite H. Qed.

Lemma bind_inv_Returns {A B} (m : M A) (k : A → M B) w b w'' :
  bind m k w = Returns b w'' →
  ∃ a w', m w = Returns a w' ∧ k a w' = Returns b w''.
Proof.
  unfold bind. destruct (m w) as [a w'| |]; [eauto | done | done].
Qed.

Lemma deref_Returns c C w :
  comps w !! c = Some C → deref c w = Returns C w.
Proof. intros H. unfold deref. by rewrite H. Qed.

Lemma jassert_comps cond w :
  ∃ w', jassert cond w = Returns tt w' ∧ comps w' = comps w ∧
        trace w' = trace w ++ (if cond then [] else [AssertionFailure]).
Proof.
  destruct cond; simpl.
  - exists w. by rewrite app_nil_r.
  - eexists. split; [reflexivity | done].
Qed.

(** ** removeComponentWithID *)

Lemma removeComponentWithID_from_scan i components compId w :
  i ≤ length components →
  (∀ c, c ∈ components → is_Some (comps w !! c)) →
  (∃ j c, j < i ∧ components !! j = Some c ∧ idOf (comps w) c = Some compId ∧
      (∀ k c', j < k < i → components !! k = Some c' → idOf (comps w) c' ≠ Some compId) ∧
      removeComponentWithID_from i components compId w
        = Returns (Some c, delete j components) w)
  ∨ ((∀ k c', k < i → components !! k = Some c' → idOf (comps w) c' ≠ Some compId) ∧
      removeComponentWithID_from i components compId w = Returns (None, components) w).
Proof.
  intros Hi Hlive. induction i as [|j IH].
  - right. split; [intros; lia | done].
  - destruct (lookup_lt_is_Some_2 components j) as [c Hc]; [lia|].
    destruct (Hlive c) as [C HC]; [by eapply list_elem_of_lookup_2|].
    simpl. rewrite Hc. rewrite (bind_Returns _ _ _ _ _ (deref_Returns _ _ _ HC)).
    destruct (String.eqb (componentID C) compId) eqn:E.
    + apply String.eqb_eq in E. left. exists j, c.
      repeat split; [lia | done | unfold idOf; rewrite HC; simpl; by rewrite E | intros; lia].
    + apply String.eqb_neq in E.
      destruct IH as [(j' & c' & Hj' & Hc' & Hid & Hlast & Hrun)|[Hnone Hrun]]; [lia| |].
      * left. exists j', c'. repeat split; [lia | done | done | | done].
        intros k c'' Hk Hc''. destruct (decide (k = j)) as [->|].
        -- rewrite Hc in Hc''. injection Hc'' as <-. unfold idOf; rewrite HC; simpl. congruence.
        -- apply (Hlast k); [lia | done].
      * right. split; [|done].
        intros k c'' Hk Hc''. destruct (decide (k = j)) as [->|].
        -- rewrite Hc in Hc''. injection Hc'' as <-. unfold idOf; rewrite HC; simpl. congruence.
        -- apply (Hnone k); [lia | done].
Qed.






(** ** The children of one parent *)

Lemma childrenOf_Some h p l :
  childrenOf h p = Some l → ∃ P, h !! p = Some P ∧ childComponentList P = l.
Proof.
  unfold childrenOf. destruct (h !! p) as [P|]; simpl; [|done].
  intros [= <-]. eauto.
Qed.

Lemma parentOf_Some h c q :
  parentOf h c = Some q → ∃ C, h !! c = Some C ∧ parentComponent C = q.
Proof.
  unfold parentOf. destruct (h !! c) as [C|]; simpl; [|done].
  intros [= <-]. eauto.
Qed.

Lemma lookup_withChildren_ne h p l q :
  q ≠ p → withChildren h p l !! q = h !! q.
Proof.
  intros Hne. unfold withChildren. destruct (h !! p); [|done].
  by rewrite lookup_insert_ne.
Qed.

Lemma lookup_withChildren_eq h p l P :
  h !! p = Some P →
  withChildren h p l !! p = Some (mkComponent (componentID P) (parentComponent P) l).
Proof. intros H. unfold withChildren. rewrite H. by rewrite lookup_insert_eq. Qed.

Lemma withChildren_twice h p l1 l2 :
  withChildren (withChildren h p l1) p l2 = withChildren h p l2.
Proof.
  unfold withChildren at 1 3. destruct (h !! p) as [P|] eqn:HP.
  - rewrite (lookup_withChildren_eq _ _ _ _ HP). simpl.
    unfold withChildren. rewrite HP. by rewrite insert_insert_eq.
  - unfold withChildren. by rewrite !HP.
Qed.

Lemma setChildren_run p l w :
  is_Some (comps w !! p) →
  setChildren p l w = Returns tt (mkWorld (withChildren (comps w) p l) (trace w)).
Proof.
  intros [P HP]. unfold setChildren, bind, deref, getComps, setComps, withChildren.
  by rewrite HP.
Qed.

Lemma siblings_withChildren h parent l l' :
  siblings h parent l → l' ≡ₚ l → siblings (withChildren h parent l') parent l'.
Proof.
  intros [Hch Hnd Hself Hback] Hperm.
  apply childrenOf_Some in Hch as (P & HP & <-). split.
  - unfold childrenOf. by rewrite (lookup_withChildren_eq _ _ _ _ HP).
  - by rewrite Hperm.
  - by rewrite Hperm.
  - intros c Hc. rewrite Hperm in Hc. unfold parentOf.
    rewrite lookup_withChildren_ne; [by apply Hback | congruence].
Qed.

Lemma without_notin c l : c ∉ l → without c l = l.
Proof.
  intros H. induction l as [|x l IH]; [done|].
  apply not_elem_of_cons in H as [Hne Hnin]. unfold without in *.
  rewrite filter_cons_True; [|done]. by rewrite IH.
Qed.

Lemma without_app c l1 l2 : without c (l1 ++ l2) = without c l1 ++ without c l2.
Proof. apply filter_app. Qed.

Lemma elem_of_without c x l : x ∈ without c l ↔ x ∈ l ∧ x ≠ c.
Proof. unfold without. rewrite list_elem_of_filter. tauto. Qed.

Lemma without_sublist c l : sublist (without c l) l.
Proof. apply sublist_filter. Qed.

Lemma NoDup_without c l : NoDup l → NoDup (without c l).
Proof. apply NoDup_filter. Qed.

Lemma without_cons_Permutation c l : NoDup l → c ∈ l → l ≡ₚ c :: without c l.
Proof.
  intros Hnd Hc. apply NoDup_Permutation; [done | |].
  - constructor; [|by apply NoDup_without].
    rewrite elem_of_without. tauto.
  - intros x. rewrite elem_of_cons, elem_of_without.
    destruct (decide (x = c)) as [->|]; naive_solver.
Qed.

Lemma insertBefore_app c other l1 l2 :
  other ∉ l1 → insertBefore c other (l1 ++ other :: l2) = l1 ++ c :: other :: l2.
Proof.
  intros H. induction l1 as [|x l1 IH]; simpl.
  - by rewrite decide_True.
  - apply not_elem_of_cons in H as [Hne Hnin].
    rewrite decide_False; [|done]. by rewrite IH.
Qed.

(** ** The Component operations on the children of one parent *)

Lemma toFront_run w parent l c :
  siblings (comps w) parent l → c ∈ l →
  toFront c w = Returns tt (mkWorld (withChildren (comps w) parent (without c l ++ [c]))
                                    (trace w ++ [ToFront c])).
Proof.
  intros [Hch Hnd Hself Hback] Hc.
  apply childrenOf_Some in Hch as (P & HP & <-).
  destruct (parentOf_Some _ _ _ (Hback c Hc)) as (C & HC & Hpar).
  unfold toFront. run. rewrite HC. run. rewrite Hpar. run. rewrite HP. run.
  rewrite decide_True; [|done]. by rewrite setChildren_run.
Qed.

Lemma toBehind_run w parent l c other :
  siblings (comps w) parent l → c ∈ l → other ∈ l → c ≠ other →
  toBehind c other w
  = Returns tt (mkWorld (withChildren (comps w) parent (insertBefore c other (without c l)))
                        (trace w ++ [ToBehind c other])).
Proof.
  intros [Hch Hnd Hself Hback] Hc Ho Hne.
  apply childrenOf_Some in Hch as (P & HP & <-).
  destruct (parentOf_Some _ _ _ (Hback c Hc)) as (C & HC & Hpar).
  unfold toBehind. run. rewrite decide_False; [|done].
  run. rewrite HC. run. rewrite Hpar. run. rewrite HP. run.
  rewrite decide_True; [|done]. by rewrite setChildren_run.
Qed.

Lemma deleteComponent_run w parent l c :
  siblings (comps w) parent l → c ∈ l →
  deleteComponent c w
  = Returns tt (mkWorld (delete c (withChildren (comps w) parent (without c l)))
                        (trace w ++ [DeleteComponent c])).
Proof.
  intros [Hch Hnd Hself Hback] Hc.
  apply childrenOf_Some in Hch as (P & HP & <-).
  destruct (parentOf_Some _ _ _ (Hback c Hc)) as (C & HC & Hpar).
  unfold deleteComponent. run. rewrite HC. run. rewrite Hpar. run. rewrite HP. run.
  by rewrite setChildren_run.
Qed.

Lemma siblings_delete h parent l c :
  siblings h parent l → c ∈ l →
  siblings (delete c (withChildren h parent (without c l))) parent (without c l).
Proof.
  intros Hs Hc.
  assert (c ≠ parent) as Hne.
  { intros ->. by apply (siblings_not_self _ _ _ Hs). }
  destruct Hs as [Hch Hnd Hself Hback].
  apply childrenOf_Some in Hch as (P & HP & <-). split.
  - unfold childrenOf. rewrite lookup_delete_ne; [|done].
    by rewrite (lookup_withChildren_eq _ _ _ _ HP).
  - by apply NoDup_without.
  - rewrite elem_of_without. tauto.
  - intros x [Hx Hxc]%elem_of_without. unfold parentOf.
    rewrite lookup_delete_ne; [|done].
    rewrite lookup_withChildren_ne; [by apply Hback | congruence].
Qed.

Lemma without_filter_notin c pool (l : list nat) :
  without c (filter (λ x, x ∉ pool) l) = filter (λ x, x ∉ c :: pool) l.
Proof.
  unfold without. induction l as [|x l IH]; [done|].
  destruct (decide (x ∈ pool)) as [Hin|Hnin].
  - rewrite (filter_cons_False (λ x, x ∉ pool)); [|tauto].
    rewrite (filter_cons_False (λ x, x ∉ c :: pool)); [done|].
    rewrite elem_of_cons. tauto.
  - rewrite (filter_cons_True (λ x, x ∉ pool)); [|done].
    destruct (decide (x = c)) as [->|Hne].
    + rewrite filter_cons_False; [|tauto].
      rewrite (filter_cons_False (λ x, x ∉ c :: pool)); [done|].
      rewrite elem_of_cons. tauto.
    + rewrite filter_cons_True; [|done].
      rewrite (filter_cons_True (λ x, x ∉ c :: pool)); [by rewrite IH|].
      rewrite elem_of_cons. tauto.
Qed.

Lemma filter_notin_nil (l : list nat) : filter (λ x, x ∉ []) l = l.
Proof.
  induction l as [|x l IH]; [done|].
  rewrite filter_cons_True; [by rewrite IH | apply not_elem_of_nil].
Qed.

Lemma filter_none (P : nat → Prop) `{∀ x, Decision (P x)} (l : list nat) :
  (∀ x, x ∈ l → ¬ P x) → filter P l = [].
Proof.
  induction l as [|x l IH]; intros Hall; [done|].
  rewrite filter_cons_False; [|apply Hall; set_solver].
  apply IH. intros y Hy. apply Hall. set_solver.
Qed.

(** Deleting a pool of children of [parent]: the calls are made from the last
    pool member to the first, the members are gone afterwards, the parent
    keeps its other children in their order and no other component changes. *)
Lemma deleteAllObjects_run w parent l pool :
  siblings (comps w) parent l → NoDup pool → pool ⊆ l →
  ∃ w', deleteAllObjects pool w = Returns tt w' ∧
        siblings (comps w') parent (filter (λ x, x ∉ pool) l) ∧
        trace w' = trace w ++ (DeleteComponent <$> rev pool) ∧
        (∀ c, c ∈ pool → comps w' !! c = None) ∧
        (∀ q, q ≠ parent → q ∉ pool → comps w' !! q = comps w !! q) ∧
        idOf (comps w') parent = idOf (comps w) parent ∧
        parentOf (comps w') parent = parentOf (comps w) parent.
Proof.
  intros Hs. induction pool as [|c pool IH]; intros Hnd Hsub.
  - exists w. simpl. rewrite app_nil_r. split_and!; try done.
    + by rewrite filter_notin_nil.
    + intros c Hc. by apply elem_of_nil in Hc.
  - apply NoDup_cons in Hnd as [Hc Hnd].
    destruct IH as (w1 & Hrun & Hs1 & Htr & Hgone & Hframe & Hid & Hpar);
      [done | set_solver |].
    assert (c ∈ filter (λ x, x ∉ pool) l) as Hc1.
    { apply list_elem_of_filter. split; [done | set_solver]. }
    assert (c ≠ parent) as Hne.
    { intros ->. apply (siblings_not_self _ _ _ Hs). set_solver. }
    eexists. simpl. rewrite (bind_Returns _ _ _ _ _ Hrun).
    rewrite (deleteComponent_run _ _ _ _ Hs1 Hc1). split; [done|]. simpl.
    pose proof (siblings_delete _ _ _ _ Hs1 Hc1) as Hs2.
    rewrite without_filter_notin in *.
    destruct (childrenOf_Some _ _ _ (siblings_children _ _ _ Hs1)) as (P & HP & _).
    split_and!.
    + done.
    + by rewrite Htr, fmap_app, app_assoc.
    + intros x [->|Hx]%elem_of_cons; [by rewrite lookup_delete_eq|].
      destruct (decide (x = c)) as [->|]; [by rewrite lookup_delete_eq|].
      rewrite lookup_delete_ne; [|done].
      destruct (decide (x = parent)) as [->|].
      * exfalso. apply (siblings_not_self _ _ _ Hs). set_solver.
      * rewrite lookup_withChildren_ne; [by apply Hgone | done].
    + intros q Hq Hnin. apply not_elem_of_cons in Hnin as [Hqc Hnin].
      rewrite lookup_delete_ne; [|done].
      rewrite lookup_withChildren_ne; [by apply Hframe | done].
    + rewrite <- Hid. unfold idOf. rewrite lookup_delete_ne; [|done].
      by rewrite (lookup_withChildren_eq _ _ _ _ HP), HP.
    + rewrite <- Hpar. unfold parentOf. rewrite lookup_delete_ne; [|done].
      by rewrite (lookup_withChildren_eq _ _ _ _ HP), HP.
Qed.

(** ** The z-order pass *)

Lemma length_toBehindCalls cio : length (toBehindCalls cio) = length cio - 1.
Proof.
  unfold toBehindCalls. destruct cio as [|a l]; [done|]. simpl.
  rewrite Nat.sub_0_r. revert a. induction l as [|x l IH]; intros a; [done|].
  simpl. by rewrite IH.
Qed.

Lemma withChildren_id h p l : childrenOf h p = Some l → withChildren h p l = h.
Proof.
  intros (P & HP & <-)%childrenOf_Some. unfold withChildren. rewrite HP.
  apply insert_id. by destruct P.
Qed.

Lemma toBehindLoop_run cio parent i : ∀ w rest,
  i < length cio → NoDup cio →
  siblings (comps w) parent (rest ++ drop i cio) → rest ≡ₚ take i cio →
  toBehindLoop cio i w
  = Returns tt (mkWorld (withChildren (comps w) parent cio)
                        (trace w ++ rev (take i (toBehindCalls cio)))).
Proof.
  induction i as [|j IH]; intros w rest Hlen Hnd Hs Hrest.
  - simpl in *. apply Permutation_nil_r in Hrest as ->. simpl in Hs.
    rewrite withChildren_id; [|by apply Hs]. rewrite app_nil_r. by destruct w.
  - destruct (lookup_lt_is_Some_2 cio j) as [c Hc]; [lia|].
    destruct (lookup_lt_is_Some_2 cio (S j)) as [next Hnext]; [lia|].
    simpl. rewrite Hc, Hnext.
    assert (c ≠ next) as Hne.
    { intros ->. pose proof (NoDup_lookup _ _ _ _ Hnd Hc Hnext). lia. }
    pose proof (take_drop (S j) cio) as Hsplit.
    rewrite <- Hsplit in Hnd. apply NoDup_app in Hnd as (Hnd1 & Hdisj & Hnd2).
    rewrite (take_S_r _ _ _ Hc) in Hrest, Hdisj, Hnd1.
    assert (c ∈ rest) as Hcrest by (rewrite Hrest; set_solver).
    assert (c ∉ drop (S j) cio) as Hcdrop by (apply Hdisj; set_solver).
    assert (next ∈ drop (S j) cio) as Hndrop.
    { rewrite (drop_S _ _ _ Hnext). set_solver. }
    assert (next ∉ rest) as Hnrest.
    { rewrite Hrest. intros Hin. by apply (Hdisj next). }
    rewrite (bind_Returns _ _ _ _ _
               (toBehind_run _ _ _ c next Hs ltac:(set_solver) ltac:(set_solver) Hne)).
    assert (insertBefore c next (without c (rest ++ drop (S j) cio))
            = without c rest ++ drop j cio) as Hlist.
    { rewrite without_app, (without_notin c (drop (S j) cio)) by done.
      rewrite (drop_S _ _ _ Hc), (drop_S _ _ _ Hnext).
      apply insertBefore_app. rewrite elem_of_without. tauto. }
    rewrite Hlist.
    assert (NoDup rest) as Hndrest by (by rewrite Hrest).
    assert (without c rest ≡ₚ take j cio) as Hrest'.
    { unfold without. rewrite Hrest. fold (without c (take j cio ++ [c])).
      rewrite without_app, without_notin.
      - unfold without. rewrite filter_cons_False, filter_nil by tauto.
        by rewrite app_nil_r.
      - apply NoDup_app in Hnd1 as (_ & Hd & _). intros Hin.
        apply (Hd c Hin). set_solver. }
    erewrite (IH _ (without c rest)); [| lia | | | done].
    + simpl. rewrite withChildren_twice. f_equal. f_equal.
      rewrite <- app_assoc. f_equal.
      assert (toBehindCalls cio !! j = Some (ToBehind c next)) as Hz.
      { unfold toBehindCalls. rewrite lookup_zip_with, Hc. simpl.
        by rewrite lookup_tail, Hnext. }
      rewrite (take_S_r _ _ _ Hz), rev_app_distr. done.
    + rewrite <- Hsplit. apply NoDup_app. rewrite (take_S_r _ _ _ Hc). done.
    + simpl. apply (siblings_withChildren _ _ _ _ Hs).
      rewrite (drop_S _ _ _ Hc).
      rewrite (without_cons_Permutation c rest Hndrest Hcrest) at 2.
      by rewrite <- Permutation_middle.
Qed.

Lemma zOrderPass_run w parent l cio :
  siblings (comps w) parent l → cio ≡ₚ l →
  zOrderPass cio w
  = Returns tt (mkWorld (withChildren (comps w) parent cio)
                        (trace w ++ zOrderCalls cio)).
Proof.
  intros Hs Hperm. unfold zOrderPass, zOrderCalls.
  destruct (last cio) as [x|] eqn:Hlast.
  - apply last_Some in Hlast as [front ->].
    assert (NoDup (front ++ [x])) as Hnd.
    { rewrite Hperm. apply Hs. }
    assert (x ∈ l) as Hx by (rewrite <- Hperm; set_solver).
    rewrite (bind_Returns _ _ _ _ _ (toFront_run _ _ _ _ Hs Hx)).
    assert (length (front ++ [x]) - 1 = length front) as ->.
    { rewrite length_app. simpl. lia. }
    assert (without x l ≡ₚ front) as Hfront.
    { unfold without. rewrite <- Hperm. fold (without x (front ++ [x])).
      rewrite without_app, without_notin.
      - unfold without. rewrite filter_cons_False, filter_nil by tauto.
        by rewrite app_nil_r.
      - apply NoDup_app in Hnd as (_ & Hd & _). intros Hin.
        apply (Hd x Hin). set_solver. }
    erewrite (toBehindLoop_run _ parent _ _ (without x l)); [| | done | |].
    + simpl. rewrite withChildren_twice. f_equal. f_equal.
      rewrite <- app_assoc. simpl. do 3 f_equal.
      apply take_ge. rewrite length_toBehindCalls, length_app. simpl. lia.
    + rewrite length_app. simpl. lia.
    + simpl. rewrite drop_app_length.
      apply (siblings_withChildren _ _ _ _ Hs).
      by rewrite Hfront.
    + by rewrite take_app_length.
  - apply last_None in Hlast as ->.
    symmetry in Hperm. apply Permutation_nil_r in Hperm as ->.
    simpl. rewrite withChildren_id; [|by apply Hs]. rewrite app_nil_r. by destruct w.
Qed.

Lemma zOrderCalls_isZOrder cio : Forall (λ e, isZOrder e = true) (zOrderCalls cio).
Proof.
  unfold zOrderCalls. destruct (last cio); [|constructor].
  constructor; [done|]. apply Forall_forall. intros e He.
  apply list_elem_of_In, in_rev, list_elem_of_In in He.
  unfold toBehindCalls in He.
  apply elem_of_lookup_zip_with in He as (i & c & next & -> & _). done.
Qed.

(** ** updateChildComponents with an empty list of new children *)

(** C7.  With an empty list of new child states [updateChildComponents]
    deletes every existing child of the parent (the pool is emptied from its
    last member to its first), leaves the parent without children and makes
    no z-order call: the deletions are the only calls it makes. *)
Theorem updateChildComponents_empty b parent children l w :
  siblings (comps w) parent l →
  getNumChildren children = 0 →
  ∃ w' calls,
    updateChildComponents b parent children w = Returns tt w' ∧
    trace w' = trace w ++ calls ∧
    calls = (DeleteComponent <$> rev l) ∧
    Forall (λ e, isZOrder e = false) calls ∧
    (∀ c, c ∈ l → comps w' !! c = None) ∧
    childrenOf (comps w') parent = Some [].
Proof.
  intros Hs Hempty.
  destruct (childrenOf_Some _ _ _ (siblings_children _ _ _ Hs)) as (P & HP & HL).
  destruct (deleteAllObjects_run w parent l l Hs) as
    (w1 & Hrun & Hs1 & Htr & Hgone & _); [by apply Hs | done |].
  exists w1, (DeleteComponent <$> rev l).
  split_and!; try done.
  - unfold updateChildComponents, childStatesOf. rewrite Hempty. simpl.
    rewrite (bind_Returns _ _ _ _ _ (deref_Returns _ _ _ HP)).
    unfold bind at 1. simpl. rewrite HL.
    by rewrite (bind_Returns _ _ _ _ _ Hrun).
  - apply Forall_forall. intros e (c & -> & _)%list_elem_of_fmap. done.
  - rewrite (siblings_children _ _ _ Hs1). f_equal.
    apply filter_none. tauto.
Qed.

(** ** Reordering the children *)

Lemma isNotEmpty_true s : s ≠ "" → isNotEmpty s = true.
Proof.
  intros H. unfold isNotEmpty. apply negb_true_iff. by apply String.eqb_neq.
Qed.

(** When the identifiers of the new child states are the identifiers of the
    pool in some order, every state takes its component out of the pool and
    the world does not change. *)
Lemma reconcileChildren_reuse b parent states : ∀ pool cio w,
  NoDup (idOf (comps w) <$> pool) →
  (∀ c, c ∈ pool → idOf (comps w) c ≠ Some "") →
  Some <$> (getStateId <$> states) ≡ₚ idOf (comps w) <$> pool →
  ∃ picked,
    reconcileChildren b parent states pool cio w = Returns ([], cio ++ picked) w ∧
    picked ≡ₚ pool ∧
    idOf (comps w) <$> picked = Some <$> (getStateId <$> states).
Proof.
  induction states as [|s states IH]; intros pool cio w Hnd Hne Hperm.
  - simpl in Hperm. symmetry in Hperm. apply Permutation_nil_r in Hperm.
    apply fmap_nil_inv in Hperm as ->. exists []. by rewrite app_nil_r.
  - assert (∀ c, c ∈ pool → is_Some (comps w !! c)) as Hlive.
    { intros c Hc. assert (idOf (comps w) c ∈ idOf (comps w) <$> pool) as Hin.
      { apply list_elem_of_fmap. eauto. }
      rewrite <- Hperm in Hin. apply list_elem_of_fmap in Hin as (x & Hx & _).
      unfold idOf in Hx. destruct (comps w !! c); [eauto | done]. }
    assert (∃ c, c ∈ pool ∧ idOf (comps w) c = Some (getStateId s)) as (c0 & Hc0 & Hid0).
    { assert (Some (getStateId s) ∈ idOf (comps w) <$> pool) as Hin.
      { rewrite <- Hperm. simpl. set_solver. }
      apply list_elem_of_fmap in Hin as (c & Hc & Hin). eauto. }
    assert (getStateId s ≠ "") as Hs.
    { intros Heq. apply (Hne c0 Hc0). by rewrite Hid0, Heq. }
    destruct (removeComponentWithID_from_scan (length pool) pool (getStateId s) w)
      as [(j & c & Hlt & Hjc & Hid & _ & Hrun)|[Hnone _]]; [done | done | |].
    + assert (pool ≡ₚ c :: delete j pool) as Hpool by (by apply delete_Permutation).
      assert (idOf (comps w) <$> pool
              ≡ₚ Some (getStateId s) :: (idOf (comps w) <$> delete j pool)) as Hids.
      { rewrite Hpool at 1. simpl. by rewrite Hid. }
      destruct (IH (delete j pool) (cio ++ [c]) w) as (picked & Hrun' & Hpick & Hpid).
      * rewrite Hids in Hnd. by apply NoDup_cons in Hnd as [_ ?].
      * intros x Hx. apply Hne. rewrite Hpool. set_solver.
      * simpl in Hperm. rewrite Hids in Hperm. by apply Permutation_cons_inv in Hperm.
      * exists (c :: picked). split_and!.
        -- assert (removeComponentWithID pool (getStateId s) w
                   = Returns (Some c, delete j pool) w) as Hrem.
           { unfold removeComponentWithID. by rewrite (isNotEmpty_true _ Hs). }
           assert (reconcileChild b parent s pool cio w
                   = Returns (delete j pool, cio ++ [c]) w) as Hstep.
           { unfold reconcileChild. by rewrite (bind_Returns _ _ _ _ _ Hrem). }
           simpl. rewrite (bind_Returns _ _ _ _ _ Hstep). simpl.
           rewrite Hrun'. by rewrite <- app_assoc.
        -- by rewrite Hpool, Hpick.
        -- rewrite !fmap_cons. by rewrite Hid, Hpid.
    + exfalso. apply list_elem_of_lookup_1 in Hc0 as [k Hk].
      apply (Hnone k c0); [by apply lookup_lt_Some in Hk | done | done].
Qed.

(** C1.  When the children of the parent carry distinct, non-empty
    identifiers and the identifiers of the new child states are those
    identifiers in some order, [updateChildComponents] creates nothing and
    deletes nothing: its only calls are the z-order calls, and the component
    store afterwards is the store before with the child list of the parent
    reordered to follow the new states. *)
Theorem updateChildComponents_permutation b parent children l w :
  siblings (comps w) parent l →
  NoDup (idOf (comps w) <$> l) →
  (∀ c, c ∈ l → idOf (comps w) c ≠ Some "") →
  Some <$> (getStateId <$> childStatesOf children) ≡ₚ idOf (comps w) <$> l →
  ∃ w' order calls,
    updateChildComponents b parent children w = Returns tt w' ∧
    order ≡ₚ l ∧
    idOf (comps w) <$> order = Some <$> (getStateId <$> childStatesOf children) ∧
    comps w' = withChildren (comps w) parent order ∧
    trace w' = trace w ++ calls ∧
    Forall (λ e, isCreation e = false ∧ isDestruction e = false) calls.
Proof.
  intros Hs Hnd Hne Hperm.
  destruct (childrenOf_Some _ _ _ (siblings_children _ _ _ Hs)) as (P & HP & HL).
  destruct (reconcileChildren_reuse b parent (childStatesOf children) l [] w)
    as (order & Hrun & Horder & Hids); [done..|].
  exists (mkWorld (withChildren (comps w) parent order) (trace w ++ zOrderCalls order)),
    order, (zOrderCalls order).
  split_and!; try done.
  - unfold updateChildComponents.
    rewrite (bind_Returns _ _ _ _ _ (deref_Returns _ _ _ HP)). rewrite HL.
    rewrite (bind_Returns _ _ _ _ _ Hrun). run.
    by apply (zOrderPass_run _ _ l).
  - eapply Forall_impl; [apply zOrderCalls_isZOrder|].
    intros [] He; done.
Qed.

(** ** Handlers that honour the contract of [addNewComponentFromState] *)

Lemma firstHandlerOfType_elem tag ts t :
  firstHandlerOfType tag ts = Some t → t ∈ ts ∧ type t = tag.
Proof.
  induction ts as [|t' ts IH]; simpl; [done|].
  destruct (String.eqb (type t') tag) eqn:E.
  - intros [= <-]. apply String.eqb_eq in E. split; [left | done].
  - intros H. apply IH in H as [? ?]. split; [by right | done].
Qed.

Lemma setComponentID_run c newID w C :
  comps w !! c = Some C →
  setComponentID c newID w
  = Returns tt (mkWorld (<[c := mkComponent newID (parentComponent C)
                                   (childComponentList C)]> (comps w)) (trace w)).
Proof. intros H. unfold setComponentID. run. by rewrite H. Qed.

Lemma createNewComponent_child t s parent l w :
  createsChild t → siblings (comps w) parent l →
  ∃ c w' l',
    createNewComponent t s (Some parent) w = Returns c w' ∧
    comps w !! c = None ∧
    siblings (comps w') parent l' ∧ l' ≡ₚ c :: l ∧
    idOf (comps w') c = Some (getStateId s) ∧
    (∀ q, is_Some (comps w !! q) → idOf (comps w') q = idOf (comps w) q) ∧
    trace w' = trace w ++ [AddNewComponent (type t) s (Some parent) (Some c)].
Proof.
  intros Ht Hs.
  destruct (childrenOf_Some _ _ _ (siblings_children _ _ _ Hs)) as (P & HP & HL).
  destruct (Ht s parent (comps w) P HP)
    as (c & h' & l' & Hadd & Hfresh & Hpar & HP' & Hl' & Hframe).
  destruct (parentOf_Some _ _ _ Hpar) as (C & HC & HCpar).
  assert (c ≠ parent) as Hne by congruence.
  exists c. eexists. exists l'. split_and!.
  - unfold createNewComponent, callAddNewComponentFromState. run.
    rewrite Hadd. simpl. rewrite HC. simpl. rewrite HCpar.
    rewrite bool_decide_eq_true_2; [|done]. simpl.
    erewrite setComponentID_run; [|exact HC]. simpl. reflexivity.
  - done.
  - simpl. destruct Hs as [_ Hnd Hself Hback]. subst l. split.
    + unfold childrenOf. rewrite lookup_insert_ne, HP'; done.
    + rewrite Hl'. apply NoDup_cons. split; [|done].
      intros Hin. apply Hback, parentOf_Some in Hin as (? & ? & _). congruence.
    + rewrite Hl'. apply not_elem_of_cons. split; [done | done].
    + intros x Hx. rewrite Hl' in Hx. unfold parentOf.
      apply elem_of_cons in Hx as [->|Hx].
      * by rewrite lookup_insert_eq, HCpar.
      * pose proof (Hback x Hx) as Hbx.
        destruct (parentOf_Some _ _ _ Hbx) as (X & HX & _).
        assert (x ≠ c) by congruence.
        assert (x ≠ parent) by (intros ->; done).
        rewrite lookup_insert_ne by done.
        rewrite Hframe; [done | done | by rewrite HX].
  - by rewrite Hl', HL.
  - simpl. unfold idOf. by rewrite lookup_insert_eq.
  - simpl. intros q [Q HQ]. unfold idOf.
    assert (q ≠ c) by congruence. rewrite lookup_insert_ne by done.
    destruct (decide (q = parent)) as [->|Hq].
    + rewrite HP', HP. done.
    + rewrite Hframe; [done | done | by rewrite HQ].
  - done.
Qed.

(** ** One turn of the loop, and the loop *)

Lemma reconcileChild_step b parent s pool cio w l :
  (∀ t, t ∈ types b → createsChild t) →
  siblings (comps w) parent l → l ≡ₚ cio ++ pool →
  ∃ pool' cio' w' l' evs,
    reconcileChild b parent s pool cio w = Returns (pool', cio') w' ∧
    siblings (comps w') parent l' ∧ l' ≡ₚ cio' ++ pool' ∧
    trace w' = trace w ++ evs ∧ Forall quiet evs ∧
    (∀ q, is_Some (comps w !! q) → idOf (comps w') q = idOf (comps w) q) ∧
    ((cio' = cio ∧ getHandlerForState b s = None) ∨
     (∃ c, cio' = cio ++ [c] ∧ idOf (comps w') c = Some (getStateId s))).
Proof.
  intros Htypes Hs Hperm.
  destruct (jassert_comps (isNotEmpty (getStateId s)) w) as (w1 & Hj & Hc1 & Ht1).
  assert (Forall quiet (if isNotEmpty (getStateId s) then [] else [AssertionFailure]))
    as Hquiet1.
  { destruct (isNotEmpty _); repeat constructor. }
  assert (∀ c, c ∈ pool → is_Some (comps w1 !! c)) as Hlive.
  { intros c Hc. rewrite Hc1.
    assert (c ∈ l) as Hcl by (rewrite Hperm; set_solver).
    apply (siblings_back _ _ _ Hs), parentOf_Some in Hcl as (C & -> & _). eauto. }
  destruct (removeComponentWithID_from_scan (length pool) pool (getStateId s) w1)
    as [(j & c & Hlt & Hjc & Hid & _ & Hrun)|[_ Hrun]]; [done | done | |].
  - assert (removeComponentWithID pool (getStateId s) w
            = Returns (Some c, delete j pool) w1) as Hrem.
    { unfold removeComponentWithID. by rewrite (bind_Returns _ _ _ _ _ Hj). }
    exists (delete j pool), (cio ++ [c]), w1, l. eexists. split_and!.
    + unfold reconcileChild. by rewrite (bind_Returns _ _ _ _ _ Hrem).
    + by rewrite Hc1.
    + rewrite Hperm, <- app_assoc. simpl.
      by rewrite (delete_Permutation pool j c Hjc) at 1.
    + exact Ht1.
    + done.
    + intros q _. by rewrite Hc1.
    + right. by exists c.
  - assert (removeComponentWithID pool (getStateId s) w = Returns (None, pool) w1)
      as Hrem.
    { unfold removeComponentWithID. by rewrite (bind_Returns _ _ _ _ _ Hj). }
    destruct (getHandlerForState b s) as [t|] eqn:Hh.
    + assert (createsChild t) as Ht.
      { apply Htypes. unfold getHandlerForState in Hh.
        by apply firstHandlerOfType_elem in Hh as [? _]. }
      rewrite <- Hc1 in Hs.
      destruct (createNewComponent_child t s parent l w1 Ht Hs)
        as (c & w2 & l' & Hnew & Hfresh & Hs2 & Hl' & Hidc & Hframe & Ht2).
      exists pool, (cio ++ [c]), w2, l'. eexists. split_and!.
      * assert ((let* c := createNewComponent t s (Some parent) in ret (Some c)) w1
                = Returns (Some c) w2) as Hnew'.
        { by rewrite (bind_Returns _ _ _ _ _ Hnew). }
        unfold reconcileChild. rewrite (bind_Returns _ _ _ _ _ Hrem). simpl.
        rewrite Hh. by rewrite (bind_Returns _ _ _ _ _ Hnew').
      * done.
      * rewrite Hl', Hperm, <- app_assoc. simpl. by rewrite <- Permutation_middle.
      * rewrite Ht2, Ht1, <- app_assoc. reflexivity.
      * apply Forall_app. split; [done|]. repeat constructor.
      * intros q Hq. rewrite <- Hc1. apply Hframe. by rewrite Hc1.
      * right. eauto.
    + exists pool, cio. eexists. exists l. eexists. split_and!.
      * unfold reconcileChild. rewrite (bind_Returns _ _ _ _ _ Hrem). simpl.
        rewrite Hh. reflexivity.
      * simpl. by rewrite Hc1.
      * done.
      * simpl. rewrite Ht1, <- app_assoc. reflexivity.
      * apply Forall_app. split; [done|]. repeat constructor.
      * simpl. intros q _. by rewrite Hc1.
      * by left.
Qed.

Lemma reconcileChildren_run b parent states : ∀ pool cio w l,
  (∀ t, t ∈ types b → createsChild t) →
  siblings (comps w) parent l → l ≡ₚ cio ++ pool →
  ∃ pool' added w' l' evs kept,
    reconcileChildren b parent states pool cio w = Returns (pool', cio ++ added) w' ∧
    siblings (comps w') parent l' ∧ l' ≡ₚ (cio ++ added) ++ pool' ∧
    trace w' = trace w ++ evs ∧ Forall quiet evs ∧
    (∀ q, is_Some (comps w !! q) → idOf (comps w') q = idOf (comps w) q) ∧
    sublist kept states ∧
    idOf (comps w') <$> added = Some <$> (getStateId <$> kept) ∧
    ((∀ s, s ∈ states → is_Some (getHandlerForState b s)) → kept = states).
Proof.
  induction states as [|s states IH]; intros pool cio w l Htypes Hs Hperm.
  - exists pool, [], w, l, [], []. rewrite !app_nil_r.
    split_and!; done.
  - destruct (reconcileChild_step b parent s pool cio w l Htypes Hs Hperm)
      as (pool1 & cio1 & w1 & l1 & evs1 & Hstep & Hs1 & Hperm1 & Ht1 & Hq1 & Hf1 & Hcase).
    destruct (IH pool1 cio1 w1 l1 Htypes Hs1 Hperm1)
      as (pool2 & added & w2 & l2 & evs2 & kept & Hrun & Hs2 & Hperm2 & Ht2 & Hq2
          & Hf2 & Hsub & Hids & Hall).
    assert (∀ q, is_Some (comps w !! q) → is_Some (comps w1 !! q)) as Hstay.
    { intros q Hq. specialize (Hf1 q Hq). unfold idOf in Hf1.
      destruct Hq as [Q HQ]. rewrite HQ in Hf1.
      destruct (comps w1 !! q); [eauto | done]. }
    assert (∀ q, is_Some (comps w !! q) → idOf (comps w2) q = idOf (comps w) q) as Hf.
    { intros q Hq. rewrite Hf2; [by apply Hf1 | by apply Hstay]. }
    assert (trace w2 = trace w ++ evs1 ++ evs2) as Ht.
    { by rewrite Ht2, Ht1, <- app_assoc. }
    destruct Hcase as [[-> Hnone]|(c & -> & Hidc)].
    + exists pool2, added, w2, l2, (evs1 ++ evs2), kept. split_and!; try done.
      * simpl. by rewrite (bind_Returns _ _ _ _ _ Hstep).
      * by apply Forall_app.
      * by apply sublist_cons.
      * intros Hhave. destruct (Hhave s) as [t Hsome]; [left|]. congruence.
    + exists pool2, (c :: added), w2, l2, (evs1 ++ evs2), (s :: kept).
      assert ((cio ++ [c]) ++ added = cio ++ c :: added) as Heq.
      { by rewrite <- app_assoc. }
      rewrite Heq in Hrun, Hperm2.
      split_and!; try done.
      * simpl. by rewrite (bind_Returns _ _ _ _ _ Hstep).
      * by apply Forall_app.
      * by apply sublist_skip.
      * rewrite !fmap_cons, Hids. f_equal. rewrite Hf2; [done|].
        unfold idOf in Hidc. destruct (comps w1 !! c); [eauto | done].
      * intros Hhave. f_equal. apply Hall. intros s' Hs'. apply Hhave. by right.
Qed.

Lemma filter_all (P : nat → Prop) `{∀ x, Decision (P x)} (l : list nat) :
  (∀ x, x ∈ l → P x) → filter P l = l.
Proof.
  induction l as [|x l IH]; intros Hall; [done|].
  rewrite filter_cons_True; [|apply Hall; set_solver].
  f_equal. apply IH. intros y Hy. apply Hall. set_solver.
Qed.

(** ** The stacking order after updateChildComponents *)

(** C2.  With handlers that honour their contract, [updateChildComponents]
    returns, and for the result list [componentsInOrder] of its loop: its
    last calls are [toFront] on the last element of the list and then
    [toBehind] on each earlier element and its successor, and afterwards the
    child list of the parent (back-most first, front-most last) is exactly
    [componentsInOrder], whatever the order of the children was before.  The
    list follows the new child states in their order: its identifiers are the
    identifiers of the states that produced an instance, which are all the
    states when every state has a handler. *)
Theorem updateChildComponents_z_order b parent children l w :
  (∀ t, t ∈ types b → createsChild t) →
  siblings (comps w) parent l →
  ∃ w' componentsInOrder pool w1 before kept,
    updateChildComponents b parent children w = Returns tt w' ∧
    reconcileChildren b parent (childStatesOf children) l [] w
      = Returns (pool, componentsInOrder) w1 ∧
    trace w' = trace w ++ before ++ zOrderCalls componentsInOrder ∧
    Forall (λ e, isZOrder e = false) before ∧
    childrenOf (comps w') parent = Some componentsInOrder ∧
    sublist kept (childStatesOf children) ∧
    idOf (comps w') <$> componentsInOrder = Some <$> (getStateId <$> kept) ∧
    ((∀ s, s ∈ childStatesOf children → is_Some (getHandlerForState b s)) →
     kept = childStatesOf children).
Proof.
  intros Htypes Hs.
  destruct (childrenOf_Some _ _ _ (siblings_children _ _ _ Hs)) as (P & HP & HL).
  destruct (reconcileChildren_run b parent (childStatesOf children) l [] w l Htypes Hs)
    as (pool & cio & w1 & l1 & evs & kept & Hrun & Hs1 & Hperm1 & Ht1 & Hq1 & _
        & Hsub & Hids & Hall); [by rewrite app_nil_l|].
  simpl in Hrun, Hperm1.
  assert (NoDup (cio ++ pool)) as Hnd.
  { rewrite <- Hperm1. apply Hs1. }
  apply NoDup_app in Hnd as (Hndc & Hdisj & Hndp).
  destruct (deleteAllObjects_run w1 parent l1 pool Hs1 Hndp)
    as (w2 & Hdel & Hs2 & Ht2 & _ & Hframe & _).
  { intros x Hx. rewrite Hperm1. set_solver. }
  assert (cio ≡ₚ filter (λ x, x ∉ pool) l1) as Hcio.
  { rewrite Hperm1, filter_app.
    rewrite (filter_all _ cio), (filter_none _ pool), app_nil_r; [done | tauto | done]. }
  pose proof (zOrderPass_run w2 parent _ cio Hs2 Hcio) as Hz.
  assert (parent ∉ cio) as Hself.
  { intros Hin. apply (siblings_not_self _ _ _ Hs1). rewrite Hperm1. set_solver. }
  eexists _, cio, pool, w1, (evs ++ (DeleteComponent <$> rev pool)), kept.
  split_and!.
  - unfold updateChildComponents.
    rewrite (bind_Returns _ _ _ _ _ (deref_Returns _ _ _ HP)). rewrite HL.
    rewrite (bind_Returns _ _ _ _ _ Hrun). simpl.
    rewrite (bind_Returns _ _ _ _ _ Hdel). exact Hz.
  - done.
  - simpl. by rewrite Ht2, Ht1, <- !app_assoc.
  - apply Forall_app. split.
    + eapply Forall_impl; [exact Hq1|]. by intros e [? _].
    + apply Forall_forall. intros e (c & -> & _)%list_elem_of_fmap. done.
  - simpl. destruct (childrenOf_Some _ _ _ (siblings_children _ _ _ Hs2)) as (P2 & HP2 & _).
    unfold childrenOf. by rewrite (lookup_withChildren_eq _ _ _ _ HP2).
  - done.
  - rewrite <- Hids. simpl. apply Forall_fmap_ext_1, Forall_forall.
    intros c Hc. unfold idOf.
    rewrite lookup_withChildren_ne by (intros ->; done).
    rewrite Hframe; [done | by intros -> | by apply Hdisj].
  - done.
Qed.

(** ** createNewComponent *)

Lemma createNewComponent_returns t s parent w c w' :
  createNewComponent t s parent w = Returns c w' →
  (addNewComponentFromState t s parent (comps w)).1 = Some c ∧
  idOf (comps w') c = Some (getStateId s) ∧
  ∃ evs, trace w' = trace w ++ AddNewComponent (type t) s parent (Some c) :: evs.
Proof.
  unfold createNewComponent, callAddNewComponentFromState. run.
  destruct (addNewComponentFromState t s parent (comps w)) as [[c0|] h']; simpl; [|done].
  destruct (h' !! c0) as [C|] eqn:HC; simpl; [|done].
  destruct (bool_decide (parentComponent C = parent)); simpl.
  - erewrite setComponentID_run by exact HC. simpl.
    intros [= <- <-]. simpl. split_and!; [done | |].
    + unfold idOf. by rewrite lookup_insert_eq.
    + by exists [].
  - unfold setComponentID. run. rewrite HC.
    intros [= <- <-]. simpl. split_and!; [done | |].
    + unfold idOf. by rewrite lookup_insert_eq.
    + exists [AssertionFailure]. by rewrite <- app_assoc.
Qed.


(** ** registerTypeHandler *)

Lemma firstHandlerOfType_app tag ts1 ts2 :
  firstHandlerOfType tag (ts1 ++ ts2)
  = match firstHandlerOfType tag ts1 with
    | Some t => Some t
    | None => firstHandlerOfType tag ts2
    end.
Proof.
  induction ts1 as [|t ts1 IH]; simpl; [done|].
  by destruct (String.eqb (type t) tag).
Qed.


(** ** findComponentWithID *)

Lemma findInChildren_inv compId find l :
  (∀ child w r w', find child w = Returns r w' → searchResult compId w r w') →
  ∀ w r w', findInChildren find l w = Returns r w' → searchResult compId w r w'.
Proof.
  intros Hfind. induction l as [|child l IH]; intros w r w'; simpl.
  - intros [= <- <-]. by split_and!.
  - intros H. apply bind_inv_Returns in H as (found & w1 & Hfound & H).
    apply Hfind in Hfound as (Hc1 & Hw1 & Hid1).
    destruct found as [f|].
    + injection H as <- <-. split_and!; [done | done |].
      intros c' [= <-]. by apply Hid1.
    + apply IH in H as (Hc & Hw & Hid). split_and!.
      * by rewrite Hc.
      * intros E. by rewrite (Hw E), (Hw1 E).
      * intros c' Hr. rewrite <- Hc1. by apply Hid.
Qed.

Lemma findComponentWithID_inv fuel compId : ∀ c w r w',
  findComponentWithID fuel c compId w = Returns r w' → searchResult compId w r w'.
Proof.
  induction fuel as [|n IH]; intros c w r w'; [done|].
  simpl. destruct (jassert_comps (isNotEmpty compId) w) as (w1 & Hj & Hc1 & Ht1).
  rewrite (bind_Returns _ _ _ _ _ Hj).
  assert (isNotEmpty compId = true → w1 = w) as Hw1.
  { intros E. rewrite E in Ht1. rewrite app_nil_r in Ht1.
    destruct w, w1. simpl in *. congruence. }
  unfold bind at 1, deref. destruct (comps w1 !! c) as [C|] eqn:HC; [|done].
  destruct (String.eqb (componentID C) compId) eqn:E.
  - intros [= <- <-]. split_and!; [done | done |].
    intros c' [= <-]. apply String.eqb_eq in E.
    unfold idOf. by rewrite <- Hc1, HC, <- E.
  - intros H. apply (findInChildren_inv compId) in H as (Hc & Hw & Hid).
    + split_and!.
      * by rewrite Hc.
      * intros E'. by rewrite (Hw E'), (Hw1 E').
      * intros c' Hr. rewrite <- Hc1. by apply Hid.
    + intros child. apply IH.
Qed.

(** ** The walk to the nearest mapped ancestor *)

Lemma getManagedComponent_created b top w :
  component b = Some top → getManagedComponent b w = Returns (Some top, b) w.
Proof. intros H. unfold getManagedComponent. by rewrite H. Qed.

Lemma updateComponent_walk fuel searchFuel b top w : ∀ s,
  component b = Some top →
  updateComponent fuel searchFuel b s w
  = match nearestMapped fuel b s with
    | None => OutOfFuel
    | Some None => Returns b w
    | Some (Some (a, h)) => updateMapped searchFuel b top h a w
    end.
Proof.
  induction fuel as [|n IH]; intros s Hb; [done|].
  simpl. rewrite (bind_Returns _ _ _ _ _ (getManagedComponent_created _ _ _ Hb)).
  simpl. unfold mappedHandler.
  destruct (getHandlerForState b s) as [h|].
  - destruct (isEmpty (getStateId s)); [|done].
    destruct (isValid (getParent s)); [by apply IH | done].
  - destruct (isValid (getParent s)); [by apply IH | done].
Qed.

Lemma nearestMapped_nearest fuel b : ∀ s a h,
  nearestMapped fuel b s = Some (Some (a, h)) →
  ∃ k, a = ancestor k s ∧ mappedHandler b a = Some h ∧
       ∀ j, j < k → mappedHandler b (ancestor j s) = None ∧
                    isValid (ancestor (S j) s) = true.
Proof.
  induction fuel as [|n IH]; intros s a h; [done|]. simpl.
  destruct (mappedHandler b s) as [h'|] eqn:Hm.
  - intros [= <- <-]. exists 0. split_and!; [done | done | intros; lia].
  - destruct (isValid (getParent s)) eqn:Hv; [|done].
    intros (k & -> & Hmap & Hbelow)%IH. exists (S k). split_and!; [done | done |].
    intros [|j] Hj; [done|]. apply Hbelow. lia.
Qed.

Lemma getManagedComponent_inv b w top b1 w1 :
  getManagedComponent b w = Returns (Some top, b1) w1 →
  component b1 = Some top ∧ types b1 = types b ∧ state b1 = state b.
Proof.
  unfold getManagedComponent. destruct (component b) as [c|] eqn:Hc.
  - by intros [= <- <- <-].
  - intros H. apply bind_inv_Returns in H as (c & w' & _ & H).
    by injection H as -> <- <-.
Qed.

Lemma updateComponent_root fuel searchFuel b s w top b1 w1 :
  getManagedComponent b w = Returns (Some top, b1) w1 →
  updateComponent fuel searchFuel b s w = updateComponent fuel searchFuel b1 s w1.
Proof.
  intros H. destruct (getManagedComponent_inv _ _ _ _ _ H) as (Hb1 & _).
  destruct fuel as [|n]; [done|]. simpl.
  rewrite (bind_Returns _ _ _ _ _ H).
  by rewrite (bind_Returns _ _ _ _ _ (getManagedComponent_created _ _ w1 Hb1)).
Qed.


(** ** Termination *)

Lemma findInChildren_total h find l :
  (∀ child w, child ∈ l → comps w = h → find child w ≠ OutOfFuel) →
  (∀ child w r w', find child w = Returns r w' → comps w' = comps w) →
  ∀ w, comps w = h → findInChildren find l w ≠ OutOfFuel.
Proof.
  intros Htotal Hkeep. induction l as [|child l IH]; intros w Hw; [done|].
  simpl. unfold bind.
  destruct (find child w) as [found w1| |] eqn:Hfind; [|done|].
  - destruct found as [f|]; [done|]. apply IH.
    + intros child' w' Hin. apply Htotal. by right.
    + apply Hkeep in Hfind. congruence.
  - exfalso. by apply (Htotal child w); [left | |].
Qed.

Lemma findComponentWithID_total compId height fuel : ∀ c w,
  finiteHierarchy (comps w) height → height c < fuel →
  findComponentWithID fuel c compId w ≠ OutOfFuel.
Proof.
  induction fuel as [|n IH]; intros c w Hfin Hlt; [lia|].
  simpl. destruct (jassert_comps (isNotEmpty compId) w) as (w1 & Hj & Hc1 & _).
  rewrite (bind_Returns _ _ _ _ _ Hj).
  unfold bind, deref. destruct (comps w1 !! c) as [C|] eqn:HC; [|done].
  destruct (String.eqb (componentID C) compId); [done|].
  apply (findInChildren_total (comps w1)); [| |done].
  - intros child w2 Hin Hw2. apply IH.
    + by rewrite Hw2, Hc1.
    + rewrite Hc1 in HC. pose proof (Hfin c C child HC Hin). lia.
  - intros child w2 r w3 H. by apply findComponentWithID_inv in H as [? _].
Qed.

Lemma createNewComponent_total t s parent w :
  createNewComponent t s parent w ≠ OutOfFuel.
Proof.
  unfold createNewComponent, callAddNewComponentFromState. run.
  destruct (addNewComponentFromState t s parent (comps w)) as [[c|] h']; simpl; [|done].
  destruct (h' !! c) as [C|] eqn:HC; simpl; [|done].
  unfold jassert. destruct (bool_decide _); run;
    unfold setComponentID; run; by rewrite HC.
Qed.

Lemma getManagedComponent_total b w : getManagedComponent b w ≠ OutOfFuel.
Proof.
  unfold getManagedComponent. destruct (component b); [done|].
  unfold createComponent, bind at 1 2.
  destruct (jassert_comps (bool_decide (0 < length (types b))) w) as (w1 & -> & _).
  destruct (getHandlerForState b (state b)) as [t|]; [|done].
  unfold bind. pose proof (createNewComponent_total t (state b) None w1).
  by destruct (createNewComponent t (state b) None w1).
Qed.

Lemma parent_depth depth s :
  finiteTree (arena s) depth → isValid (getParent s) = true →
  depthOf depth (getParent s) < depthOf depth s.
Proof.
  intros Hfin. unfold isValid, getParent, depthOf, node. simpl.
  destruct (object s) as [n|]; [|done].
  destruct (arena s !! n) as [o|] eqn:Ho; [|done].
  destruct (so_parent o) as [p|] eqn:Hp; [|done]. intros _. by eapply Hfin.
Qed.

Lemma nearestMapped_enough depth b fuel : ∀ s,
  finiteTree (arena s) depth → depthOf depth s < fuel →
  nearestMapped fuel b s ≠ None.
Proof.
  induction fuel as [|n IH]; intros s Hfin Hlt; [lia|]. simpl.
  destruct (mappedHandler b s); [done|].
  destruct (isValid (getParent s)) eqn:Hv; [|done].
  apply IH; [done|]. pose proof (parent_depth depth s Hfin Hv). lia.
Qed.

(** C10.  On a finite component tree the search [findComponentWithID] with
    fuel above the height of its starting component does not run out of fuel;
    each step of the walk of [updateComponent] goes to a valid parent of
    strictly smaller depth; and on a finite state tree, with a finite
    component tree under the root, [updateComponent] with fuel above the depth
    of the node does not run out of fuel.  So both functions terminate. *)
Theorem updateComponent_terminates depth fuel searchFuel b s w :
  (∀ height c compId w0 n,
      finiteHierarchy (comps w0) height → height c < n →
      findComponentWithID n c compId w0 ≠ OutOfFuel)
  ∧ (finiteTree (arena s) depth → isValid (getParent s) = true →
     depthOf depth (getParent s) < depthOf depth s)
  ∧ (finiteTree (arena s) depth → depthOf depth s < fuel →
     (∀ top b1 w1, getManagedComponent b w = Returns (Some top, b1) w1 →
                   ∃ height, finiteHierarchy (comps w1) height ∧ height top < searchFuel) →
     updateComponent fuel searchFuel b s w ≠ OutOfFuel).
Proof.
  split_and!.
  - intros height c compId w0 n. apply findComponentWithID_total.
  - apply parent_depth.
  - intros Hfin Hlt Hcomp.
    destruct (getManagedComponent b w) as [[[top|] b1] w1|w1|] eqn:Hroot.
    + rewrite (updateComponent_root _ _ _ _ _ _ _ _ Hroot).
      destruct (getManagedComponent_inv _ _ _ _ _ Hroot) as (Hb1 & _).
      rewrite (updateComponent_walk _ _ _ _ _ _ Hb1).
      pose proof (nearestMapped_enough depth b1 fuel s Hfin Hlt) as Hnear.
      destruct (nearestMapped fuel b1 s) as [[[a h]|]|]; [|done|done].
      destruct (Hcomp top b1 w1 eq_refl) as (height & Hh & Htop).
      unfold updateMapped, bind.
      pose proof (findComponentWithID_total (getStateId a) height searchFuel top w1 Hh Htop).
      destruct (findComponentWithID searchFuel top (getStateId a) w1) as [[c|] w2| |];
        done.
    + destruct fuel as [|n]; [lia|]. simpl. by rewrite (bind_Returns _ _ _ _ _ Hroot).
    + destruct fuel as [|n]; [lia|]. simpl. by rewrite (bind_Crash _ _ _ _ Hroot).
    + by destruct (getManagedComponent_total b w).
Qed.

(** ** A notification before the root exists *)

(** C3, as the code has it.  A notification that arrives before the root was
    created makes [updateComponent] ask [getManagedComponent] for the root,
    and that call creates it.  When the type of the root state has a
    registered handler and the handler's component is accepted, the
    notification creates the root and goes on as it does with a created
    root.  Only when the type of the root state has no registered handler
    does the root stay uncreated: then the components are left as they were,
    the builder is unchanged and the only events are assertion failures. *)
Theorem updateComponent_before_root fuel searchFuel b s w :
  component b = None →
  (getHandlerForState b (state b) = None →
   ∃ w' evs, updateComponent (S fuel) searchFuel b s w = Returns b w' ∧
             comps w' = comps w ∧ trace w' = trace w ++ evs ∧
             Forall (λ e, isAssertion e = true) evs)
  ∧ (∀ t c w1, getHandlerForState b (state b) = Some t →
       createNewComponent t (state b) None w = Returns c w1 →
       getManagedComponent b w = Returns (Some c, withComponent b (Some c)) w1 ∧
       updateComponent (S fuel) searchFuel b s w
       = updateComponent (S fuel) searchFuel (withComponent b (Some c)) s w1 ∧
       is_Some (comps w1 !! c) ∧
       ∃ evs, trace w1 = trace w ++ AddNewComponent (type t) (state b) None (Some c) :: evs).
Proof.
  intros Hnone. split.
  - intros Hh.
    destruct (jassert_comps (bool_decide (0 < length (types b))) w) as (w1 & Hj & Hc1 & Ht1).
    exists (mkWorld (comps w1) (trace w1 ++ [AssertionFailure])). eexists.
    split_and!.
    + simpl. unfold getManagedComponent, createComponent. rewrite Hnone, Hh.
      unfold bind at 1 2 3. rewrite Hj. simpl. f_equal.
      destruct b. simpl in *. by subst.
    + done.
    + simpl. rewrite Ht1, <- app_assoc. reflexivity.
    + apply Forall_app. split; [|by repeat constructor].
      destruct (bool_decide _); by repeat constructor.
  - intros t c w1 Hh Hnew.
    assert (getManagedComponent b w = Returns (Some c, withComponent b (Some c)) w1)
      as Hroot.
    { unfold getManagedComponent, createComponent. rewrite Hnone, Hh.
      unfold getHandlerForState in Hh. apply firstHandlerOfType_elem in Hh as [Hin _].
      rewrite bool_decide_eq_true_2.
      - simpl. unfold bind at 1 2 3. simpl. by rewrite Hnew.
      - destruct (types b); [by apply elem_of_nil in Hin | simpl; lia]. }
    apply createNewComponent_returns in Hnew as (_ & Hid & Hev).
    split_and!; [done | | | done].
    + by apply (updateComponent_root _ _ _ _ _ c).
    + unfold idOf in Hid. destruct (comps w1 !! c); [eauto | done].
Qed.

(** ** A child state of an unknown type *)

Lemma reconcileChildren_app b parent l1 : ∀ l2 pool cio w,
  reconcileChildren b parent (l1 ++ l2) pool cio w
  = (let* r := reconcileChildren b parent l1 pool cio in
     reconcileChildren b parent l2 r.1 r.2) w.
Proof.
  induction l1 as [|s l1 IH]; intros l2 pool cio w; [done|].
  simpl. unfold bind in *.
  destruct (reconcileChild b parent s pool cio w) as [r w1| |]; [|done|done].
  apply IH.
Qed.

(** C5.  In the loop of [updateChildComponents], a child state whose type has
    no registered handler and whose identifier is carried by no member of the
    pool produces no instance: the turn leaves the pool, the result list and
    the components as they are and reports assertion failures.  The loop is
    not left: the states after it are processed from that same pool and
    result list, and the pool members that remain at the end are deleted and
    the z-order pass is made as usual. *)
Theorem updateChildComponents_unknown_type b parent s pool cio w :
  getHandlerForState b s = None →
  (∀ c, c ∈ pool → is_Some (comps w !! c)) →
  (∀ c, c ∈ pool → idOf (comps w) c ≠ Some (getStateId s)) →
  ∃ w' evs,
    reconcileChild b parent s pool cio w = Returns (pool, cio) w' ∧
    comps w' = comps w ∧ trace w' = trace w ++ evs ∧
    Forall (λ e, isAssertion e = true) evs ∧
    (∀ after, reconcileChildren b parent (s :: after) pool cio w
              = reconcileChildren b parent after pool cio w') ∧
    (∀ children before after w0 P,
       comps w0 !! parent = Some P →
       childStatesOf children = before ++ s :: after →
       reconcileChildren b parent before (childComponentList P) [] w0
         = Returns (pool, cio) w →
       updateChildComponents b parent children w0
       = (let* r := reconcileChildren b parent after pool cio in
          deleteAllObjects r.1 ;;; zOrderPass r.2) w').
Proof.
  intros Hh Hlive Hnone.
  destruct (jassert_comps (isNotEmpty (getStateId s)) w) as (w1 & Hj & Hc1 & Ht1).
  assert (removeComponentWithID pool (getStateId s) w = Returns (None, pool) w1) as Hrem.
  { unfold removeComponentWithID. rewrite (bind_Returns _ _ _ _ _ Hj).
    destruct (removeComponentWithID_from_scan (length pool) pool (getStateId s) w1)
      as [(j & c & _ & Hjc & Hid & _)|[_ Hrun]]; [done | by rewrite Hc1 | | done].
    exfalso. rewrite Hc1 in Hid. apply (Hnone c); [|done].
    by eapply list_elem_of_lookup_2. }
  assert (reconcileChild b parent s pool cio w
          = Returns (pool, cio) (mkWorld (comps w1) (trace w1 ++ [AssertionFailure])))
    as Hstep.
  { unfold reconcileChild. rewrite (bind_Returns _ _ _ _ _ Hrem). simpl.
    by rewrite Hh. }
  eexists. eexists. split_and!.
  - exact Hstep.
  - done.
  - simpl. rewrite Ht1, <- app_assoc. reflexivity.
  - apply Forall_app. split; [|by repeat constructor].
    destruct (isNotEmpty _); by repeat constructor.
  - intros after. simpl. by rewrite (bind_Returns _ _ _ _ _ Hstep).
  - intros children before after w0 P HP Hsplit Hbefore.
    unfold updateChildComponents.
    rewrite (bind_Returns _ _ _ _ _ (deref_Returns _ _ _ HP)).
    rewrite Hsplit.
    assert (reconcileChildren b parent (before ++ s :: after) (childComponentList P) [] w0
            = reconcileChildren b parent after pool cio
                (mkWorld (comps w1) (trace w1 ++ [AssertionFailure]))) as Hloop.
    { rewrite reconcileChildren_app, (bind_Returns _ _ _ _ _ Hbefore). simpl.
      by rewrite (bind_Returns _ _ _ _ _ Hstep). }
    unfold bind at 1 3. by rewrite Hloop.
Qed.

(** ** The sample data meets the hypotheses *)

Lemma plainCreate_createsChild tag owner update :
  createsChild (mkTypeHandler tag owner plainCreate update).
Proof.
  intros s parent h P HP. simpl. unfold plainCreate. rewrite HP.
  set (c := fresh (dom h)).
  assert (h !! c = None) as Hfresh.
  { apply not_elem_of_dom. apply is_fresh. }
  assert (c ≠ parent) as Hne by congruence.
  eexists c, _, _. split_and!.
  - reflexivity.
  - done.
  - unfold parentOf. rewrite lookup_insert_ne by done. by rewrite lookup_insert_eq.
  - by rewrite lookup_insert_eq.
  - by rewrite <- Permutation_cons_append.
  - intros q Hq [Q HQ]. rewrite lookup_insert_ne by done.
    rewrite lookup_insert_ne by congruence. done.
Qed.

Lemma sampleTypes_createChild t : t ∈ sampleTypes → createsChild t.
Proof.
  unfold sampleTypes. intros Ht.
  repeat (apply elem_of_cons in Ht as [->|Ht]);
    [apply plainCreate_createsChild.. | by apply elem_of_nil in Ht].
Qed.

Lemma sample_siblings : siblings sampleComps 101 [103; 104].
Proof.
  split.
  - vm_compute. reflexivity.
  - repeat constructor; set_solver.
  - set_solver.
  - intros c Hc.
    repeat (apply elem_of_cons in Hc as [->|Hc]);
      [vm_compute; reflexivity.. | by apply elem_of_nil in Hc].
Qed.

Lemma sample_finiteTree : finiteTree sampleArena sampleDepth.
Proof.
  intros n o p Hn Hp. unfold sampleArena in Hn.
  apply elem_of_list_to_map_2 in Hn.
  repeat (apply elem_of_cons in Hn as [Hn|Hn]);
    [injection Hn as -> ->; simpl in Hp; try discriminate;
     injection Hp as <-; vm_compute; lia.. | by apply elem_of_nil in Hn].
Qed.

Lemma sample_finiteHierarchy : finiteHierarchy sampleComps sampleHeight.
Proof.
  intros c C child Hc Hchild. unfold sampleComps in Hc.
  apply elem_of_list_to_map_2 in Hc.
  repeat (apply elem_of_cons in Hc as [Hc|Hc]);
    [injection Hc as -> ->; simpl in Hchild;
     repeat (apply elem_of_cons in Hchild as [->|Hchild]);
     first [by apply elem_of_nil in Hchild | vm_compute; lia].. |
     by apply elem_of_nil in Hc].
Qed.

(** ** The theorems on the sample data *)

Lemma updateChildComponents_permutation_sample :
  ∃ w' order calls,
    updateChildComponents sampleBuilder 101 (sampleNode 1) sampleWorld = Returns tt w' ∧
    order ≡ₚ [103; 104] ∧
    idOf (comps sampleWorld) <$> order
    = Some <$> (getStateId <$> childStatesOf (sampleNode 1)) ∧
    comps w' = withChildren (comps sampleWorld) 101 order ∧
    trace w' = trace sampleWorld ++ calls ∧
    Forall (λ e, isCreation e = false ∧ isDestruction e = false) calls.
Proof.
  apply (updateChildComponents_permutation sampleBuilder 101 (sampleNode 1)
           [103; 104] sampleWorld).
  - exact sample_siblings.
  - vm_compute. compute_done.
  - intros c Hc.
    repeat (apply elem_of_cons in Hc as [->|Hc]);
      [vm_compute; discriminate.. | by apply elem_of_nil in Hc].
  - vm_compute. apply Permutation_swap.
Defined.

Lemma updateChildComponents_z_order_sample :
  ∃ w' componentsInOrder pool w1 before kept,
    updateChildComponents sampleBuilder 101 (sampleNode 2) sampleWorld = Returns tt w' ∧
    reconcileChildren sampleBuilder 101 (childStatesOf (sampleNode 2)) [103; 104] []
      sampleWorld = Returns (pool, componentsInOrder) w1 ∧
    trace w' = trace sampleWorld ++ before ++ zOrderCalls componentsInOrder ∧
    Forall (λ e, isZOrder e = false) before ∧
    childrenOf (comps w') 101 = Some componentsInOrder ∧
    sublist kept (childStatesOf (sampleNode 2)) ∧
    idOf (comps w') <$> componentsInOrder = Some <$> (getStateId <$> kept) ∧
    ((∀ s, s ∈ childStatesOf (sampleNode 2) → is_Some (getHandlerForState sampleBuilder s)) →
     kept = childStatesOf (sampleNode 2)).
Proof.
  apply (updateChildComponents_z_order sampleBuilder 101 (sampleNode 2)
           [103; 104] sampleWorld).
  - exact sampleTypes_createChild.
  - exact sample_siblings.
Defined.

Lemma updateChildComponents_empty_sample :
  ∃ w' calls,
    updateChildComponents sampleBuilder 101 (sampleNode 3) sampleWorld = Returns tt w' ∧
    trace w' = trace sampleWorld ++ calls ∧
    calls = (DeleteComponent <$> rev [103; 104]) ∧
    Forall (λ e, isZOrder e = false) calls ∧
    (∀ c, c ∈ [103; 104] → comps w' !! c = None) ∧
    childrenOf (comps w') 101 = Some [].
Proof.
  apply (updateChildComponents_empty sampleBuilder 101 (sampleNode 3)
           [103; 104] sampleWorld).
  - exact sample_siblings.
  - vm_compute. reflexivity.
Defined.


Lemma updateComponent_before_root_sample :
  (∃ w' evs, updateComponent 1 1 bareBuilder (sampleNode 8) emptyWorld
               = Returns bareBuilder w' ∧
             comps w' = comps emptyWorld ∧ trace w' = trace emptyWorld ++ evs ∧
             Forall (λ e, isAssertion e = true) evs)
  ∧ (∃ c w1, getManagedComponent freshBuilder emptyWorld
               = Returns (Some c, withComponent freshBuilder (Some c)) w1 ∧
             is_Some (comps w1 !! c)).
Proof.
  split.
  - apply (proj1 (updateComponent_before_root 0 1 bareBuilder (sampleNode 8)
                    emptyWorld eq_refl)).
    vm_compute. reflexivity.
  - edestruct (proj2 (updateComponent_before_root 0 1 freshBuilder (sampleNode 8)
                        emptyWorld eq_refl)) as (Hroot & _ & Hlive & _).
    + vm_compute. reflexivity.
    + vm_compute. reflexivity.
    + eexists _, _. split; [exact Hroot | exact Hlive].
Defined.


Lemma updateChildComponents_unknown_type_sample :
  ∃ w' evs,
    reconcileChild sampleBuilder 101 (sampleNode 6) [103; 104] [] sampleWorld
      = Returns ([103; 104], []) w' ∧
    comps w' = comps sampleWorld ∧ trace w' = trace sampleWorld ++ evs ∧
    Forall (λ e, isAssertion e = true) evs ∧
    updateChildComponents sampleBuilder 101 (sampleNode 2) sampleWorld
    = (let* r := reconcileChildren sampleBuilder 101 [sampleNode 5; sampleNode 7]
                   [103; 104] [] in
       deleteAllObjects r.1 ;;; zOrderPass r.2) w'.
Proof.
  destruct (updateChildComponents_unknown_type sampleBuilder 101 (sampleNode 6)
              [103; 104] [] sampleWorld) as (w' & evs & H1 & H2 & H3 & H4 & _ & H6).
  - vm_compute. reflexivity.
  - intros c Hc.
    repeat (apply elem_of_cons in Hc as [->|Hc]);
      [vm_compute; eexists; reflexivity.. | by apply elem_of_nil in Hc].
  - intros c Hc.
    repeat (apply elem_of_cons in Hc as [->|Hc]);
      [vm_compute; discriminate.. | by apply elem_of_nil in Hc].
  - exists w', evs. split_and!; [done..|].
    apply (H6 (sampleNode 2) [] [sampleNode 5; sampleNode 7] sampleWorld
              (mkComponent "left" (Some 100) [103; 104])).
    + vm_compute. reflexivity.
    + vm_compute. reflexivity.
    + reflexivity.
Defined.



Lemma updateComponent_terminates_sample :
  findComponentWithID 3 100 "b1" sampleWorld ≠ OutOfFuel
  ∧ depthOf sampleDepth (getParent (sampleNode 8)) < depthOf sampleDepth (sampleNode 8)
  ∧ updateComponent 4 3 sampleBuilder (sampleNode 8) sampleWorld ≠ OutOfFuel.
Proof.
  destruct (updateComponent_terminates sampleDepth 4 3 sampleBuilder (sampleNode 8)
              sampleWorld) as (Hfind & Hstep & Hwalk).
  split_and!.
  - apply (Hfind sampleHeight); [exact sample_finiteHierarchy | vm_compute; lia].
  - apply Hstep; [exact sample_finiteTree | vm_compute; reflexivity].
  - apply Hwalk; [exact sample_finiteTree | vm_compute; lia |].
    intros top b1 w1 [= <- <- <-]. exists sampleHeight.
    split; [exact sample_finiteHierarchy | vm_compute; lia].
Defined.

(** ** Where the specification and the code differ *)

(** C3, as the specification states it, fails: with a handler registered for
    the type of the root state, a notification that arrives before the root
    was created creates the root. *)
Lemma updateComponent_creates_root :
  ¬ (∀ fuel searchFuel b s w b' w',
       component b = None →
       updateComponent fuel searchFuel b s w = Returns b' w' →
       component b' = None ∧ comps w' = comps w ∧
       Forall (λ e, isCreation e = false) (trace w')).
Proof.
  intros Hclaim.
  assert (∃ b' w', updateComponent 1 1 freshBuilder (sampleNode 0) emptyWorld
                   = Returns b' w' ∧ component b' = Some 0) as (b' & w' & Hrun & Hc).
  { eexists _, _. split; vm_compute; reflexivity. }
  destruct (Hclaim 1 1 freshBuilder (sampleNode 0) emptyWorld b' w' eq_refl Hrun)
    as (Hnone & _).
  congruence.
Qed.


(** * Further properties of the builder *)

(** ** The registry *)

Lemma firstHandlerOfType_first tag ts t :
  firstHandlerOfType tag ts = Some t →
  ∃ i, ts !! i = Some t ∧ type t = tag ∧
       ∀ j t', j < i → ts !! j = Some t' → type t' ≠ tag.
Proof.
  induction ts as [|t0 ts IH]; simpl; [done|].
  destruct (String.eqb (type t0) tag) eqn:E.
  - intros [= <-]. apply String.eqb_eq in E. exists 0.
    split_and!; [done | done | intros; lia].
  - apply String.eqb_neq in E. intros (i & Hi & Ht & Hbefore)%IH.
    exists (S i). split_and!; [done | done |].
    intros [|j] t' Hj Ht'; simpl in Ht'; [by injection Ht' as <- |].
    apply (Hbefore j); [lia | done].
Qed.

Lemma firstHandlerOfType_None tag ts :
  firstHandlerOfType tag ts = None ↔ ∀ t, t ∈ ts → type t ≠ tag.
Proof.
  induction ts as [|t0 ts IH]; simpl.
  - split; [|done]. intros _ t Ht. by apply elem_of_nil in Ht.
  - destruct (String.eqb (type t0) tag) eqn:E.
    + apply String.eqb_eq in E. split; [done|].
      intros Hall. exfalso. apply (Hall t0); [left | done].
    + apply String.eqb_neq in E. rewrite IH. split.
      * intros Hall t [->|Ht]%elem_of_cons; [done | by apply Hall].
      * intros Hall t Ht. apply Hall. by right.
Qed.

(** X1.  [getHandlerForState] returns a registered handler whose type is the
    type of the state, and the one registered first among those; it returns
    null exactly when no registered handler has that type. *)
Theorem getHandlerForState_first_match b s :
  (∀ t, getHandlerForState b s = Some t →
        ∃ i, types b !! i = Some t ∧ type t = getType s ∧
             ∀ j t', j < i → types b !! j = Some t' → type t' ≠ getType s)
  ∧ (getHandlerForState b s = None ↔ ∀ t, t ∈ types b → type t ≠ getType s).
Proof.
  split.
  - intros t. apply firstHandlerOfType_first.
  - apply firstHandlerOfType_None.
Qed.

Lemma registerTypeHandler_inv b h w b' w' :
  registerTypeHandler b (Some h) w = Returns b' w' →
  b' = mkComponentBuilder (this b) (state b) (types b ++ [attachedTo b h])
         (component b) (imageProvider b) ∧
  comps w' = comps w ∧
  trace w' = trace w ++ (if bool_decide (builder h = None) then [] else [AssertionFailure]).
Proof.
  unfold registerTypeHandler. run. destruct (bool_decide (builder h = None)); simpl.
  - intros [= <- <-]. by rewrite app_nil_r.
  - by intros [= <- <-].
Qed.

(** X2.  Registering a handler appends it to the registry and changes nothing
    else: the builder keeps its address, state, component and image provider,
    the components are untouched, a lookup for a state of another type gives
    what it gave before, and a lookup that found a handler before still finds
    that handler. *)
Theorem registerTypeHandler_frame b h w b' w' :
  registerTypeHandler b (Some h) w = Returns b' w' →
  this b' = this b ∧ state b' = state b ∧ component b' = component b ∧
  imageProvider b' = imageProvider b ∧
  types b' = types b ++ [attachedTo b h] ∧
  comps w' = comps w ∧
  (∀ s, getType s ≠ type h → getHandlerForState b' s = getHandlerForState b s) ∧
  (∀ s t, getHandlerForState b s = Some t → getHandlerForState b' s = Some t).
Proof.
  intros (-> & Hc & _)%registerTypeHandler_inv. split_and!; try done.
  - intros s Hs. unfold getHandlerForState. simpl. rewrite firstHandlerOfType_app.
    destruct (firstHandlerOfType (getType s) (types b)); [done|]. simpl.
    destruct (String.eqb (type h) (getType s)) eqn:E; [|done].
    apply String.eqb_eq in E. congruence.
  - intros s t Ht. unfold getHandlerForState in *. simpl.
    by rewrite firstHandlerOfType_app, Ht.
Qed.

(** X3.  A handler that was just constructed has no builder: [getBuilder]
    reports an assertion failure and returns null.  Once the handler is
    registered the builder holds it with the back-reference set, and
    [getBuilder] on it returns the address of the builder without assertion
    failure. *)
Theorem getBuilder_after_registration tag create update b w :
  getBuilder (newTypeHandler tag create update) w
  = Returns None (mkWorld (comps w) (trace w ++ [AssertionFailure]))
  ∧ ∃ b' t,
      registerTypeHandler b (Some (newTypeHandler tag create update)) w = Returns b' w ∧
      last (types b') = Some t ∧ type t = tag ∧
      addNewComponentFromState t = create ∧ updateComponentFromState t = update ∧
      getBuilder t w = Returns (Some (this b)) w.
Proof.
  split; [done|].
  eexists _, (attachedTo b (newTypeHandler tag create update)). split_and!.
  - unfold registerTypeHandler. run. by destruct w.
  - simpl. by rewrite last_snoc.
  - done.
  - done.
  - done.
  - unfold getBuilder. run. by destruct w.
Qed.

(** ** createNewComponent and the root *)

(** X4.  The paths of [createNewComponent] on which the handler breaks its
    contract.  A null result fires the assertion and then the identifier is
    set through the null pointer.  A component with another parent than the
    one supplied fires the assertion, and the component is returned all the
    same, with the identifier of the state and the parent the handler gave
    it. *)
Theorem createNewComponent_broken_contract t s parent w :
  (∀ h', addNewComponentFromState t s parent (comps w) = (None, h') →
         createNewComponent t s parent w
         = Crash (mkWorld h' (trace w ++ [AddNewComponent (type t) s parent None;
                                          AssertionFailure])))
  ∧ (∀ c h' C, addNewComponentFromState t s parent (comps w) = (Some c, h') →
               h' !! c = Some C → parentComponent C ≠ parent →
               createNewComponent t s parent w
               = Returns c (mkWorld (<[c := mkComponent (getStateId s) (parentComponent C)
                                                (childComponentList C)]> h')
                                    (trace w ++ [AddNewComponent (type t) s parent (Some c);
                                                 AssertionFailure]))).
Proof.
  split.
  - intros h' Hadd. unfold createNewComponent, callAddNewComponentFromState. run.
    rewrite Hadd. simpl. by rewrite <- app_assoc.
  - intros c h' C Hadd HC Hpar.
    unfold createNewComponent, callAddNewComponentFromState. run.
    rewrite Hadd. simpl. rewrite HC. simpl.
    rewrite bool_decide_eq_false_2 by done. simpl.
    unfold setComponentID. run. rewrite HC. by rewrite <- app_assoc.
Qed.

Lemma createNewComponent_accepted t s parent w c h' C :
  addNewComponentFromState t s parent (comps w) = (Some c, h') →
  h' !! c = Some C → parentComponent C = parent →
  createNewComponent t s parent w
  = Returns c (mkWorld (<[c := mkComponent (getStateId s) parent (childComponentList C)]> h')
                       (trace w ++ [AddNewComponent (type t) s parent (Some c)])).
Proof.
  intros Hadd HC Hpar. unfold createNewComponent, callAddNewComponentFromState. run.
  rewrite Hadd. simpl. rewrite HC. simpl.
  rewrite bool_decide_eq_true_2 by done. simpl.
  unfold setComponentID. run. rewrite HC. by rewrite Hpar.
Qed.

Lemma createComponent_found b t w :
  getHandlerForState b (state b) = Some t →
  createComponent b w
  = (let* c := createNewComponent t (state b) None in ret (Some c)) w.
Proof.
  intros Hh. unfold createComponent. rewrite Hh.
  unfold getHandlerForState in Hh. apply firstHandlerOfType_elem in Hh as [Hin _].
  rewrite bool_decide_eq_true_2; [done|].
  destruct (types b); [by apply elem_of_nil in Hin | simpl; lia].
Qed.

(** X5.  The first call of [getManagedComponent] on a builder whose root
    state has a handler that honours its contract creates the root with a
    single handler call: the root has no parent and carries the identifier of
    the root state, and the builder keeps it.  A second call returns the same
    component and does nothing: no handler call, no change of the components
    or of the builder. *)
Theorem getManagedComponent_once b t w c h' C :
  component b = None →
  getHandlerForState b (state b) = Some t →
  addNewComponentFromState t (state b) None (comps w) = (Some c, h') →
  h' !! c = Some C → parentComponent C = None →
  ∃ w1,
    getManagedComponent b w = Returns (Some c, withComponent b (Some c)) w1 ∧
    trace w1 = trace w ++ [AddNewComponent (type t) (state b) None (Some c)] ∧
    idOf (comps w1) c = Some (getStateId (state b)) ∧
    parentOf (comps w1) c = Some None ∧
    getManagedComponent (withComponent b (Some c)) w1
    = Returns (Some c, withComponent b (Some c)) w1.
Proof.
  intros Hnone Hh Hadd HC Hpar.
  pose proof (createNewComponent_accepted t (state b) None w c h' C Hadd HC Hpar) as Hnew.
  eexists. split_and!.
  - unfold getManagedComponent. rewrite Hnone.
    unfold bind at 1. rewrite (createComponent_found _ _ _ Hh).
    by rewrite (bind_Returns _ _ _ _ _ Hnew).
  - done.
  - simpl. unfold idOf. by rewrite lookup_insert_eq.
  - simpl. unfold parentOf. by rewrite lookup_insert_eq.
  - done.
Qed.

(** X6.  [getManagedComponent] on a builder without handlers reports two
    assertion failures, returns null and leaves the builder and the
    components as they were: the failure is not remembered.  After a handler
    for the type of the root state has been registered, the next call creates
    the root through that handler. *)
Theorem getManagedComponent_retry address root w h c h' C :
  builder h = None → type h = getType root →
  addNewComponentFromState h root None (comps w) = (Some c, h') →
  h' !! c = Some C → parentComponent C = None →
  let b := newComponentBuilder address root in
  let w1 := mkWorld (comps w) (trace w ++ [AssertionFailure; AssertionFailure]) in
  getManagedComponent b w = Returns (None, b) w1
  ∧ ∃ b' w2,
      registerTypeHandler b (Some h) w1 = Returns b' w1 ∧
      getManagedComponent b' w1 = Returns (Some c, withComponent b' (Some c)) w2 ∧
      idOf (comps w2) c = Some (getStateId root) ∧
      trace w2 = trace w1 ++ [AddNewComponent (type h) root None (Some c)].
Proof.
  intros Hfree Htype Hadd HC Hpar b w1. split.
  - unfold getManagedComponent, createComponent. simpl. run. by rewrite <- app_assoc.
  - set (b' := mkComponentBuilder address root [attachedTo b h] None None).
    assert (getHandlerForState b' (state b') = Some (attachedTo b h)) as Hh.
    { unfold getHandlerForState. simpl. by rewrite Htype, String.eqb_refl. }
    pose proof (createNewComponent_accepted (attachedTo b h) root None w1 c h' C
                  Hadd HC Hpar) as Hnew.
    eexists b', _. split_and!.
    + unfold registerTypeHandler. run. by rewrite bool_decide_eq_true_2.
    + unfold getManagedComponent. simpl.
      unfold bind at 1. rewrite (createComponent_found _ _ _ Hh).
      simpl. by rewrite (bind_Returns _ _ _ _ _ Hnew).
    + simpl. unfold idOf. by rewrite lookup_insert_eq.
    + done.
Qed.

(** ** findComponentWithID *)

Lemma findInChildren_descendant h compId find l :
  (∀ child w r w', find child w = Returns r w' → comps w = h →
     comps w' = h ∧
     match r with
     | Some c' => descendant h child c' ∧ idOf h c' = Some compId
     | None => ∀ d, descendant h child d → idOf h d ≠ Some compId
     end) →
  ∀ w r w', findInChildren find l w = Returns r w' → comps w = h →
    match r with
    | Some c' => ∃ child, child ∈ l ∧ descendant h child c' ∧ idOf h c' = Some compId
    | None => ∀ child d, child ∈ l → descendant h child d → idOf h d ≠ Some compId
    end.
Proof.
  intros Hfind. induction l as [|child l IH]; intros w r w'; simpl.
  - intros [= <- <-] _. intros child d Hin. by apply elem_of_nil in Hin.
  - intros H Hw. apply bind_inv_Returns in H as (found & w1 & Hfound & H).
    destruct (Hfind _ _ _ _ Hfound Hw) as [Hw1 Hres].
    destruct found as [f|].
    + injection H as <- <-. destruct Hres as [Hd Hid]. exists child.
      split_and!; [left | done | done].
    + specialize (IH _ _ _ H Hw1). destruct r as [c'|].
      * destruct IH as (child' & Hin & Hd & Hid). exists child'.
        split_and!; [by right | done | done].
      * intros child' d [->|Hin]%elem_of_cons Hd; [by apply Hres | by eapply IH].
Qed.

(** X7.  What [findComponentWithID] returns: a component it returns lies in
    the tree under the starting component and carries the identifier; when it
    returns null, no component in the tree under the starting component
    carries the identifier. *)
Theorem findComponentWithID_sound_complete fuel compId : ∀ c w r w',
  findComponentWithID fuel c compId w = Returns r w' →
  match r with
  | Some c' => descendant (comps w) c c' ∧ idOf (comps w) c' = Some compId
  | None => ∀ d, descendant (comps w) c d → idOf (comps w) d ≠ Some compId
  end.
Proof.
  induction fuel as [|n IH]; intros c w r w'; [done|].
  simpl. destruct (jassert_comps (isNotEmpty compId) w) as (w1 & Hj & Hc1 & _).
  rewrite (bind_Returns _ _ _ _ _ Hj).
  unfold bind at 1, deref. rewrite Hc1.
  destruct (comps w !! c) as [C|] eqn:HC; [|done].
  destruct (String.eqb (componentID C) compId) eqn:E.
  - intros [= <- <-]. apply String.eqb_eq in E. split; [constructor|].
    unfold idOf. by rewrite HC, <- E.
  - apply String.eqb_neq in E. intros H.
    apply (findInChildren_descendant (comps w) compId) in H; [| |done].
    + destruct r as [c'|].
      * destruct H as (child & Hin & Hd & Hid). split; [|done].
        by eapply descendant_child.
      * intros d Hd. inversion Hd as [|? C' child ? HC' Hin Hd']; subst.
        -- unfold idOf. rewrite HC. simpl. congruence.
        -- rewrite HC in HC'. injection HC' as <-. by eapply H.
    + intros child w2 r2 w3 Hfind Hw2. split.
      * apply findComponentWithID_inv in Hfind as [? _]. congruence.
      * apply IH in Hfind. by rewrite Hw2 in Hfind.
Qed.

(** ** What a notification does and does not do *)

Lemma createNewComponent_trace t s parent w c w' :
  createNewComponent t s parent w = Returns c w' →
  ∃ evs, trace w' = trace w ++ AddNewComponent (type t) s parent (Some c) :: evs ∧
         Forall (λ e, isAssertion e = true) evs.
Proof.
  unfold createNewComponent, callAddNewComponentFromState. run.
  destruct (addNewComponentFromState t s parent (comps w)) as [[c0|] h']; simpl; [|done].
  destruct (h' !! c0) as [C|] eqn:HC; simpl; [|done].
  destruct (bool_decide (parentComponent C = parent)); simpl.
  - erewrite setComponentID_run by exact HC. simpl.
    intros [= <- <-]. simpl. by exists [].
  - unfold setComponentID. run. rewrite HC.
    intros [= <- <-]. simpl. exists [AssertionFailure].
    split; [by rewrite <- app_assoc | by repeat constructor].
Qed.

Lemma filter_none_events (P : Event → Prop) `{∀ e, Decision (P e)} (l : list Event) :
  Forall (λ e, ¬ P e) l → filter P l = [].
Proof.
  induction 1 as [|e l He _ IH]; [done|]. by rewrite filter_cons_False.
Qed.

Lemma getManagedComponent_events b w r b1 w1 :
  getManagedComponent b w = Returns (r, b1) w1 →
  b1 = withComponent b r ∧
  (component b ≠ None → r = component b ∧ w1 = w) ∧
  (r = None → comps w1 = comps w) ∧
  ∃ evs, trace w1 = trace w ++ evs ∧
         Forall (λ e, isAssertion e = true ∨ isCreation e = true) evs ∧
         length (filter (λ e, isCreation e = true) evs) ≤ 1 ∧
         (component b ≠ None → evs = []).
Proof.
  unfold getManagedComponent. destruct (component b) as [top|] eqn:Hb.
  - intros [= <- <- <-]. split_and!.
    + destruct b. simpl in *. by subst.
    + done.
    + done.
    + exists []. rewrite app_nil_r. split_and!; [done | constructor | simpl; lia | done].
  - intros H. apply bind_inv_Returns in H as (c & w2 & Hcreate & H).
    injection H as <- <- <-. split_and!; [done | done | |].
    + unfold createComponent in Hcreate.
      destruct (jassert_comps (bool_decide (0 < length (types b))) w) as (w0 & Hj & Hc0 & _).
      rewrite (bind_Returns _ _ _ _ _ Hj) in Hcreate.
      destruct (getHandlerForState b (state b)) as [t|].
      * apply bind_inv_Returns in Hcreate as (c' & w3 & _ & Hret).
        by injection Hret as <- <-.
      * injection Hcreate as <- <-. done.
    + unfold createComponent in Hcreate.
      destruct (jassert_comps (bool_decide (0 < length (types b))) w) as (w0 & Hj & Hc0 & Ht0).
      rewrite (bind_Returns _ _ _ _ _ Hj) in Hcreate.
      assert (Forall (λ e, isAssertion e = true ∨ isCreation e = true)
                (if bool_decide (0 < length (types b)) then [] else [AssertionFailure]))
        as Hq0 by (destruct (bool_decide _); repeat constructor).
      assert (filter (λ e, isCreation e = true)
                (if bool_decide (0 < length (types b)) then [] else [AssertionFailure]) = [])
        as Hf0 by (by destruct (bool_decide _)).
      destruct (getHandlerForState b (state b)) as [t|].
      * apply bind_inv_Returns in Hcreate as (c' & w3 & Hnew & Hret).
        injection Hret as <- <-.
        apply createNewComponent_trace in Hnew as (evs & Ht3 & Hq3).
        eexists. split_and!.
        -- rewrite Ht3, Ht0, <- app_assoc. reflexivity.
        -- apply Forall_app. split; [done|]. constructor; [by right|].
           eapply Forall_impl; [exact Hq3|]. by left.
        -- rewrite filter_app, Hf0, app_nil_l, filter_cons_True by done.
           rewrite filter_none_events; [simpl; lia|].
           eapply Forall_impl; [exact Hq3|]. by intros [].
        -- done.
      * injection Hcreate as <- <-. eexists. split_and!.
        -- simpl. rewrite Ht0, <- app_assoc. reflexivity.
        -- apply Forall_app. split; [done|]. repeat constructor.
        -- rewrite filter_app, Hf0. simpl. lia.
        -- done.
Qed.

Lemma updateMapped_inv searchFuel b top h a w b' w' :
  updateMapped searchFuel b top h a w = Returns b' w' →
  mappedHandler b a = Some h →
  b' = b ∧
  (w' = w ∨
   ∃ c, idOf (comps w) c = Some (getStateId a) ∧
        w' = mkWorld (updateComponentFromState h c a (comps w))
                     (trace w ++ [UpdateComponent (type h) c a])).
Proof.
  intros H Hm. unfold updateMapped in H.
  apply bind_inv_Returns in H as (r & w2 & Hfind & H).
  apply findComponentWithID_inv in Hfind as (_ & Hw2 & Hid).
  assert (isNotEmpty (getStateId a) = true) as Hne.
  { unfold mappedHandler in Hm. destruct (getHandlerForState b a); [|done].
    unfold isNotEmpty. unfold isEmpty in Hm.
    by destruct (String.eqb (getStateId a) ""). }
  rewrite (Hw2 Hne) in H. destruct r as [c|].
  - unfold callUpdateComponentFromState in H. revert H. run.
    intros [= <- <-]. split; [done|]. right. exists c. split; [by apply Hid | done].
  - injection H as <- <-. auto.
Qed.

(** What [updateComponent] leaves behind when it returns: the builder as
    [getManagedComponent] left it, and the world of [getManagedComponent]
    with at most one handler update on top. *)
Lemma updateComponent_inv fuel searchFuel b s w b' w' :
  updateComponent fuel searchFuel b s w = Returns b' w' →
  ∃ r w1, getManagedComponent b w = Returns (r, b') w1 ∧
          (w' = w1 ∨
           ∃ top a h c, r = Some top ∧ mappedHandler b' a = Some h ∧
                        idOf (comps w1) c = Some (getStateId a) ∧
                        w' = mkWorld (updateComponentFromState h c a (comps w1))
                                     (trace w1 ++ [UpdateComponent (type h) c a])).
Proof.
  intros H. destruct fuel as [|n]; [done|].
  destruct (getManagedComponent b w) as [[[top|] b1] w1|w1|] eqn:Hroot.
  - rewrite (updateComponent_root _ _ _ _ _ _ _ _ Hroot) in H.
    destruct (getManagedComponent_inv _ _ _ _ _ Hroot) as (Hb1 & _).
    rewrite (updateComponent_walk _ _ _ _ _ _ Hb1) in H.
    destruct (nearestMapped (S n) b1 s) as [[[a h]|]|] eqn:Hnear; [| |done].
    + destruct (nearestMapped_nearest _ _ _ _ _ Hnear) as (k & _ & Hm & _).
      destruct (updateMapped_inv _ _ _ _ _ _ _ _ H Hm) as [-> Hw'].
      exists (Some top), w1. split; [done|].
      destruct Hw' as [->|(c & Hid & ->)]; [by left|].
      right. by exists top, a, h, c.
    + injection H as <- <-. exists (Some top), w1. auto.
  - simpl in H. rewrite (bind_Returns _ _ _ _ _ Hroot) in H. simpl in H.
    injection H as <- <-. exists None, w1. auto.
  - simpl in H. by rewrite (bind_Crash _ _ _ _ Hroot) in H.
  - by destruct (getManagedComponent_total b w).
Qed.

(** X8.  A notification never deletes a component and never changes the
    z-order by itself: every call [updateComponent] makes is an assertion
    failure report, the creation of the root or a handler update.  It creates
    at most one component, and none when the root exists already, and it
    calls at most one handler update. *)
Theorem updateComponent_calls fuel searchFuel b s w b' w' :
  updateComponent fuel searchFuel b s w = Returns b' w' →
  ∃ evs, trace w' = trace w ++ evs ∧
         Forall (λ e, isAssertion e = true ∨ isCreation e = true ∨ isUpdate e = true) evs ∧
         length (filter (λ e, isCreation e = true) evs) ≤ 1 ∧
         length (filter (λ e, isUpdate e = true) evs) ≤ 1 ∧
         (component b ≠ None → filter (λ e, isCreation e = true) evs = []).
Proof.
  intros (r & w1 & Hroot & Hw')%updateComponent_inv.
  apply getManagedComponent_events in Hroot
    as (_ & _ & _ & evs & Ht1 & Hq1 & Hcount & Hcreated).
  assert (Forall (λ e, isAssertion e = true ∨ isCreation e = true ∨ isUpdate e = true) evs)
    as Hq.
  { eapply Forall_impl; [exact Hq1|]. intros e [?|?]; auto. }
  assert (filter (λ e, isUpdate e = true) evs = []) as Hnoupdate.
  { apply filter_none_events. eapply Forall_impl; [exact Hq1|].
    intros [] [?|?]; done. }
  destruct Hw' as [->|(top & a & h & c & _ & _ & _ & ->)].
  - exists evs. split_and!; [done | done | done | by rewrite Hnoupdate; simpl; lia |].
    intros Hb. by rewrite (Hcreated Hb).
  - exists (evs ++ [UpdateComponent (type h) c a]). simpl. split_and!.
    + by rewrite Ht1, <- app_assoc.
    + apply Forall_app. split; [done|]. constructor; [|constructor]. auto.
    + rewrite filter_app. rewrite (filter_cons_False _ (UpdateComponent _ _ _)) by done.
      by rewrite filter_nil, app_nil_r.
    + rewrite filter_app, Hnoupdate. simpl. lia.
    + intros Hb. by rewrite (Hcreated Hb).
Qed.

(** X9.  A notification leaves the builder's address, state, registry and
    image provider alone.  A root that exists is never replaced: the builder
    comes back as it went in.  If the builder still has no root afterwards
    the components have not changed. *)
Theorem updateComponent_builder fuel searchFuel b s w b' w' :
  updateComponent fuel searchFuel b s w = Returns b' w' →
  this b' = this b ∧ state b' = state b ∧ types b' = types b ∧
  imageProvider b' = imageProvider b ∧
  (component b ≠ None → b' = b) ∧
  (component b' = None → component b = None ∧ comps w' = comps w).
Proof.
  intros (r & w1 & Hroot & Hw')%updateComponent_inv.
  apply getManagedComponent_events in Hroot as (-> & Hkeep & Hnull & _).
  split_and!; try done.
  - intros Hb. destruct (Hkeep Hb) as [-> _]. destruct b. simpl in *. done.
  - simpl. intros ->. split.
    + destruct (component b) eqn:Hb; [|done].
      by destruct (Hkeep ltac:(done)).
    + destruct Hw' as [->|(top & ? & ? & ? & ? & _)]; [by apply Hnull | done].
Qed.

(** X10.  The image provider given to [setImageProvider] is what
    [getImageProvider] returns, also after handlers were registered and
    notifications were processed; setting it changes neither the lookup of
    handlers nor the root. *)
Theorem imageProvider_kept b p h w b1 w1 fuel searchFuel s b2 w2 :
  registerTypeHandler (setImageProvider b p) (Some h) w = Returns b1 w1 →
  updateComponent fuel searchFuel b1 s w1 = Returns b2 w2 →
  getImageProvider (setImageProvider b p) = p ∧
  getImageProvider b1 = p ∧ getImageProvider b2 = p ∧
  component (setImageProvider b p) = component b ∧
  (∀ s', getHandlerForState (setImageProvider b p) s' = getHandlerForState b s').
Proof.
  intros (-> & _)%registerTypeHandler_inv (r & w' & Hroot & _)%updateComponent_inv.
  apply getManagedComponent_events in Hroot as (-> & _).
  by split_and!.
Qed.

(** ** The whole effect of updateChildComponents *)

Lemma filter_ext_in {A} (P Q : A → Prop) `{∀ x, Decision (P x)} `{∀ x, Decision (Q x)}
    (l : list A) :
  (∀ x, x ∈ l → (P x ↔ Q x)) → filter P l = filter Q l.
Proof.
  induction l as [|x l IH]; intros Hext; [done|].
  rewrite !filter_cons.
  destruct (decide (P x)) as [HP|HP], (decide (Q x)) as [HQ|HQ].
  - f_equal. apply IH. intros y Hy. apply Hext. by right.
  - exfalso. apply HQ. apply (Hext x); [left | done].
  - exfalso. apply HP. apply (Hext x); [left | done].
  - apply IH. intros y Hy. apply Hext. by right.
Qed.

Lemma filter_all_in {A} (P : A → Prop) `{∀ x, Decision (P x)} (l : list A) :
  (∀ x, x ∈ l → P x) → filter P l = l.
Proof.
  induction l as [|x l IH]; intros Hall; [done|].
  rewrite filter_cons_True by (apply Hall; left).
  f_equal. apply IH. intros y Hy. apply Hall. by right.
Qed.

Lemma delete_filter_unique {B} `{EqDecision B} (f : nat → B) (l : list nat) : ∀ j c,
  NoDup (f <$> l) → l !! j = Some c →
  delete j l = filter (λ x, f x ≠ f c) l.
Proof.
  induction l as [|x l IH]; intros j c Hnd Hj; [done|].
  rewrite fmap_cons in Hnd. apply NoDup_cons in Hnd as [Hx Hnd].
  destruct j as [|j]; simpl in Hj.
  - injection Hj as ->. simpl. rewrite filter_cons_False by (intros Hne; by apply Hne).
    symmetry. apply filter_all_in. intros y Hy Heq. apply Hx.
    rewrite <- Heq. apply list_elem_of_fmap. eauto.
  - simpl. rewrite filter_cons_True.
    + f_equal. by apply IH.
    + intros Heq. apply Hx. rewrite Heq. apply list_elem_of_fmap.
      exists c. split; [done|]. by eapply list_elem_of_lookup_2.
Qed.

Lemma NoDup_fmap_filter {B} (f : nat → B) (P : nat → Prop) `{∀ x, Decision (P x)}
    (l : list nat) :
  NoDup (f <$> l) → NoDup (f <$> filter P l).
Proof.
  induction l as [|x l IH]; [done|].
  rewrite fmap_cons. intros [Hx Hnd]%NoDup_cons. rewrite filter_cons.
  destruct (decide (P x)); [|by apply IH].
  rewrite fmap_cons. apply NoDup_cons. split; [|by apply IH].
  intros (y & Heq & Hy)%list_elem_of_fmap. apply Hx. rewrite Heq.
  apply list_elem_of_fmap. exists y. split; [done|].
  by apply list_elem_of_filter in Hy as [_ ?].
Qed.

Lemma createNewComponent_effect t s parent l w :
  createsChild t → siblings (comps w) parent l →
  ∃ c w' l',
    createNewComponent t s (Some parent) w = Returns c w' ∧
    comps w !! c = None ∧
    siblings (comps w') parent l' ∧ l' ≡ₚ c :: l ∧
    (∀ q, q ≠ parent → is_Some (comps w !! q) → comps w' !! q = comps w !! q) ∧
    idOf (comps w') parent = idOf (comps w) parent ∧
    parentOf (comps w') parent = parentOf (comps w) parent ∧
    trace w' = trace w ++ [AddNewComponent (type t) s (Some parent) (Some c)].
Proof.
  intros Ht Hs.
  destruct (childrenOf_Some _ _ _ (siblings_children _ _ _ Hs)) as (P & HP & HL).
  destruct (Ht s parent (comps w) P HP)
    as (c & h' & l' & Hadd & Hfresh & Hpar & HP' & Hl' & Hframe).
  destruct (parentOf_Some _ _ _ Hpar) as (C & HC & HCpar).
  assert (c ≠ parent) as Hne by congruence.
  exists c. eexists. exists l'. split_and!.
  - by apply (createNewComponent_accepted t s (Some parent) w c h' C).
  - done.
  - simpl. destruct Hs as [_ Hnd Hself Hback]. subst l. split.
    + unfold childrenOf. rewrite lookup_insert_ne, HP'; done.
    + rewrite Hl'. apply NoDup_cons. split; [|done].
      intros Hin. apply Hback, parentOf_Some in Hin as (? & ? & _). congruence.
    + rewrite Hl'. apply not_elem_of_cons. split; [done | done].
    + intros x Hx. rewrite Hl' in Hx. unfold parentOf.
      apply elem_of_cons in Hx as [->|Hx].
      * by rewrite lookup_insert_eq.
      * pose proof (Hback x Hx) as Hbx.
        destruct (parentOf_Some _ _ _ Hbx) as (X & HX & _).
        assert (x ≠ c) by congruence.
        assert (x ≠ parent) by (intros ->; done).
        rewrite lookup_insert_ne by done.
        rewrite Hframe; [done | done | by rewrite HX].
  - by rewrite Hl', HL.
  - simpl. intros q Hq [Q HQ].
    assert (q ≠ c) by congruence. rewrite lookup_insert_ne by done.
    apply Hframe; [done | by rewrite HQ].
  - simpl. unfold idOf. rewrite lookup_insert_ne by done. by rewrite HP', HP.
  - simpl. unfold parentOf. rewrite lookup_insert_ne by done. by rewrite HP', HP.
  - done.
Qed.

Lemma creations_app evs1 evs2 : creations (evs1 ++ evs2) = creations evs1 + creations evs2.
Proof. unfold creations. by rewrite filter_app, length_app. Qed.

Lemma creations_assertion b : creations (if b : bool then [] else [AssertionFailure]) = 0.
Proof. by destruct b. Qed.

Lemma reconcileChild_effect b parent s pool cio w l :
  (∀ t, t ∈ types b → createsChild t) →
  siblings (comps w) parent l → l ≡ₚ cio ++ pool →
  ∃ pool' added w' l' evs,
    reconcileChild b parent s pool cio w = Returns (pool', cio ++ added) w' ∧
    siblings (comps w') parent l' ∧ l' ≡ₚ (cio ++ added) ++ pool' ∧
    trace w' = trace w ++ evs ∧ Forall quiet evs ∧
    (∀ q, q ≠ parent → is_Some (comps w !! q) → comps w' !! q = comps w !! q) ∧
    idOf (comps w') parent = idOf (comps w) parent ∧
    parentOf (comps w') parent = parentOf (comps w) parent ∧
    (NoDup (idOf (comps w) <$> pool) →
     pool' = filter (λ c, idOf (comps w) c ≠ Some (getStateId s)) pool) ∧
    pool' ⊆ pool ∧
    (∀ c, c ∈ pool → c ∈ added ∨ c ∈ pool') ∧
    length added + length pool' = length pool + creations evs ∧
    Forall (λ c, c ∈ pool ∨ comps w !! c = None) added.
Proof.
  intros Htypes Hs Hperm.
  destruct (jassert_comps (isNotEmpty (getStateId s)) w) as (w1 & Hj & Hc1 & Ht1).
  assert (Forall quiet (if isNotEmpty (getStateId s) then [] else [AssertionFailure]))
    as Hquiet1.
  { destruct (isNotEmpty _); repeat constructor. }
  assert (∀ c, c ∈ pool → is_Some (comps w1 !! c)) as Hlive.
  { intros c Hc. rewrite Hc1.
    assert (c ∈ l) as Hcl by (rewrite Hperm; set_solver).
    apply (siblings_back _ _ _ Hs), parentOf_Some in Hcl as (C & -> & _). eauto. }
  destruct (removeComponentWithID_from_scan (length pool) pool (getStateId s) w1)
    as [(j & c & Hlt & Hjc & Hid & _ & Hrun)|[Hnone Hrun]]; [done | done | |].
  - assert (removeComponentWithID pool (getStateId s) w
            = Returns (Some c, delete j pool) w1) as Hrem.
    { unfold removeComponentWithID. by rewrite (bind_Returns _ _ _ _ _ Hj). }
    exists (delete j pool), [c], w1, l. eexists. split_and!.
    + unfold reconcileChild. by rewrite (bind_Returns _ _ _ _ _ Hrem).
    + by rewrite Hc1.
    + rewrite Hperm, <- app_assoc. simpl.
      by rewrite (delete_Permutation pool j c Hjc) at 1.
    + exact Ht1.
    + done.
    + intros q _ _. by rewrite Hc1.
    + by rewrite Hc1.
    + by rewrite Hc1.
    + intros Hnd. rewrite Hc1 in Hid. rewrite <- Hid.
      by apply (delete_filter_unique (idOf (comps w))).
    + intros x Hx. by apply list_elem_of_delete_inv in Hx.
    + intros x Hx. rewrite (delete_Permutation pool j c Hjc) in Hx.
      apply elem_of_cons in Hx as [->|Hx]; [left; by left | by right].
    + rewrite length_delete by eauto. rewrite creations_assertion.
      simpl. apply lookup_lt_Some in Hjc. lia.
    + constructor; [|constructor]. left. by eapply list_elem_of_lookup_2.
  - assert (removeComponentWithID pool (getStateId s) w = Returns (None, pool) w1)
      as Hrem.
    { unfold removeComponentWithID. by rewrite (bind_Returns _ _ _ _ _ Hj). }
    assert (pool = filter (λ c, idOf (comps w) c ≠ Some (getStateId s)) pool) as Hfilter.
    { symmetry. apply filter_all_in. intros c [k Hk]%list_elem_of_lookup_1.
      rewrite <- Hc1. apply (Hnone k); [by apply lookup_lt_Some in Hk | done]. }
    destruct (getHandlerForState b s) as [t|] eqn:Hh.
    + assert (createsChild t) as Ht.
      { apply Htypes. unfold getHandlerForState in Hh.
        by apply firstHandlerOfType_elem in Hh as [? _]. }
      rewrite <- Hc1 in Hs.
      destruct (createNewComponent_effect t s parent l w1 Ht Hs)
        as (c & w2 & l' & Hnew & Hfresh & Hs2 & Hl' & Hframe & Hpid & Hppar & Ht2).
      exists pool, [c], w2, l'. eexists. split_and!.
      * assert ((let* c := createNewComponent t s (Some parent) in ret (Some c)) w1
                = Returns (Some c) w2) as Hnew'.
        { by rewrite (bind_Returns _ _ _ _ _ Hnew). }
        unfold reconcileChild. rewrite (bind_Returns _ _ _ _ _ Hrem). simpl.
        rewrite Hh. by rewrite (bind_Returns _ _ _ _ _ Hnew').
      * done.
      * rewrite Hl', Hperm, <- app_assoc. simpl. by rewrite <- Permutation_middle.
      * rewrite Ht2, Ht1, <- app_assoc. reflexivity.
      * apply Forall_app. split; [done|]. repeat constructor.
      * intros q Hq Hlq. rewrite <- Hc1. apply Hframe; [done | by rewrite Hc1].
      * by rewrite Hpid, Hc1.
      * by rewrite Hppar, Hc1.
      * done.
      * done.
      * auto.
      * rewrite creations_app, creations_assertion. simpl.
        unfold creations. simpl. lia.
      * constructor; [|constructor]. right. by rewrite <- Hc1.
    + exists pool, []. eexists. exists l. eexists. split_and!.
      * unfold reconcileChild. rewrite (bind_Returns _ _ _ _ _ Hrem). simpl.
        rewrite Hh. rewrite app_nil_r. reflexivity.
      * simpl. by rewrite Hc1.
      * by rewrite app_nil_r.
      * simpl. rewrite Ht1, <- app_assoc. reflexivity.
      * apply Forall_app. split; [done|]. repeat constructor.
      * simpl. intros q _ _. by rewrite Hc1.
      * simpl. by rewrite Hc1.
      * simpl. by rewrite Hc1.
      * done.
      * done.
      * auto.
      * rewrite creations_app, creations_assertion. unfold creations. simpl. lia.
      * constructor.
Qed.

Lemma reconcileChildren_effect b parent states : ∀ pool cio w l,
  (∀ t, t ∈ types b → createsChild t) →
  siblings (comps w) parent l → l ≡ₚ cio ++ pool →
  ∃ pool' added w' l' evs,
    reconcileChildren b parent states pool cio w = Returns (pool', cio ++ added) w' ∧
    siblings (comps w') parent l' ∧ l' ≡ₚ (cio ++ added) ++ pool' ∧
    trace w' = trace w ++ evs ∧ Forall quiet evs ∧
    (∀ q, q ≠ parent → is_Some (comps w !! q) → comps w' !! q = comps w !! q) ∧
    idOf (comps w') parent = idOf (comps w) parent ∧
    parentOf (comps w') parent = parentOf (comps w) parent ∧
    (NoDup (idOf (comps w) <$> pool) →
     pool' = filter (λ c, idOf (comps w) c ∉ (Some <$> (getStateId <$> states))) pool) ∧
    pool' ⊆ pool ∧
    (∀ c, c ∈ pool → c ∈ added ∨ c ∈ pool') ∧
    length added + length pool' = length pool + creations evs ∧
    Forall (λ c, c ∈ pool ∨ comps w !! c = None) added.
Proof.
  induction states as [|s states IH]; intros pool cio w l Htypes Hs Hperm.
  - exists pool, [], w, l, []. rewrite !app_nil_r.
    split_and!; try done; try (by auto); try (unfold creations; simpl; lia).
    intros _. symmetry. apply filter_all_in. intros c _. apply not_elem_of_nil.
  - destruct (reconcileChild_effect b parent s pool cio w l Htypes Hs Hperm)
      as (pool1 & added1 & w1 & l1 & evs1 & Hstep & Hs1 & Hperm1 & Ht1 & Hq1 & Hf1
          & Hid1 & Hpar1 & Hfil1 & Hsub1 & Hcov1 & Hlen1 & Hnew1).
    destruct (IH pool1 (cio ++ added1) w1 l1 Htypes Hs1 Hperm1)
      as (pool2 & added2 & w2 & l2 & evs2 & Hrun & Hs2 & Hperm2 & Ht2 & Hq2 & Hf2
          & Hid2 & Hpar2 & Hfil2 & Hsub2 & Hcov2 & Hlen2 & Hnew2).
    assert (∀ q, q ∈ pool → q ≠ parent ∧ is_Some (comps w !! q)) as Hpool.
    { intros q Hq. assert (q ∈ l) as Hql by (rewrite Hperm; set_solver). split.
      - intros ->. by apply (siblings_not_self _ _ _ Hs).
      - apply (siblings_back _ _ _ Hs), parentOf_Some in Hql as (C & -> & _). eauto. }
    assert (∀ q, q ≠ parent → is_Some (comps w !! q) →
                 comps w2 !! q = comps w !! q) as Hf.
    { intros q Hq Hlq. rewrite Hf2; [by apply Hf1 | done |].
      by rewrite Hf1. }
    exists pool2, (added1 ++ added2), w2, l2, (evs1 ++ evs2).
    rewrite app_assoc. split_and!.
    + simpl. by rewrite (bind_Returns _ _ _ _ _ Hstep).
    + done.
    + done.
    + by rewrite Ht2, Ht1, <- app_assoc.
    + by apply Forall_app.
    + done.
    + by rewrite Hid2.
    + by rewrite Hpar2.
    + intros Hnd. specialize (Hfil1 Hnd).
      assert (Forall (λ c, idOf (comps w1) c = idOf (comps w) c) pool1) as Hsame.
      { apply Forall_forall. intros c Hc. apply Hsub1, Hpool in Hc as [? ?].
        unfold idOf. by rewrite Hf1. }
      rewrite Hfil2.
      * rewrite (filter_ext_in _ (λ c, idOf (comps w) c ∉ Some <$> (getStateId <$> states))).
        -- rewrite Hfil1, list_filter_filter. apply filter_ext_in.
           intros c _. rewrite !fmap_cons, not_elem_of_cons. tauto.
        -- intros c Hc. rewrite Forall_forall in Hsame. by rewrite (Hsame c Hc).
      * rewrite (Forall_fmap_ext_1 _ _ _ Hsame), Hfil1. by apply NoDup_fmap_filter.
    + intros c Hc. by apply Hsub1, Hsub2.
    + intros c Hc. rewrite elem_of_app.
      destruct (Hcov1 c Hc) as [?|Hc1]; [auto|].
      destruct (Hcov2 c Hc1); auto.
    + rewrite length_app, creations_app. lia.
    + apply Forall_app. split; [done|].
      eapply Forall_impl; [exact Hnew2|]. intros c [Hc|Hc]; [left; by apply Hsub1|].
      right. destruct (comps w !! c) as [C|] eqn:HC; [|done]. exfalso.
      destruct (decide (c = parent)) as [->|Hne].
      * destruct (childrenOf_Some _ _ _ (siblings_children _ _ _ Hs1)) as (P & HP & _).
        congruence.
      * rewrite Hf1 in Hc; [congruence | done | by rewrite HC].
Qed.

Lemma idOf_withChildren h p l q : idOf (withChildren h p l) q = idOf h q.
Proof.
  unfold idOf. destruct (decide (q = p)) as [->|Hne].
  - unfold withChildren. destruct (h !! p) as [P|] eqn:HP; [|by rewrite HP].
    by rewrite lookup_insert_eq.
  - by rewrite lookup_withChildren_ne.
Qed.

Lemma parentOf_withChildren h p l q : parentOf (withChildren h p l) q = parentOf h q.
Proof.
  unfold parentOf. destruct (decide (q = p)) as [->|Hne].
  - unfold withChildren. destruct (h !! p) as [P|] eqn:HP; [|by rewrite HP].
    by rewrite lookup_insert_eq.
  - by rewrite lookup_withChildren_ne.
Qed.

Lemma destructions_app evs1 evs2 :
  filter (λ e, isDestruction e = true) (evs1 ++ evs2)
  = filter (λ e, isDestruction e = true) evs1 ++ filter (λ e, isDestruction e = true) evs2.
Proof. apply filter_app. Qed.

Lemma zOrderCalls_quiet cio :
  filter (λ e, isDestruction e = true) (zOrderCalls cio) = [] ∧
  creations (zOrderCalls cio) = 0.
Proof.
  pose proof (zOrderCalls_isZOrder cio) as Hz. unfold creations.
  rewrite !filter_none_events; [done | |];
    (eapply Forall_impl; [exact Hz|]); by intros [].
Qed.

Lemma deletions_loud pool :
  filter (λ e, isDestruction e = true) (DeleteComponent <$> pool) = (DeleteComponent <$> pool) ∧
  creations (DeleteComponent <$> pool) = 0.
Proof.
  split.
  - apply filter_all_in. by intros e (c & -> & _)%list_elem_of_fmap.
  - unfold creations. rewrite filter_none_events; [done|].
    apply Forall_forall. by intros e (c & -> & _)%list_elem_of_fmap.
Qed.

Lemma quiet_no_destruction evs :
  Forall quiet evs → filter (λ e, isDestruction e = true) evs = [].
Proof.
  intros Hq. apply filter_none_events. eapply Forall_impl; [exact Hq|].
  intros e [_ He]. congruence.
Qed.

(** Under the handler contract, what [updateChildComponents] leaves: [final]
    is the child list of the parent afterwards, [gone] the pool members it
    deleted. *)
Lemma updateChildComponents_effect b parent children l w :
  (∀ t, t ∈ types b → createsChild t) →
  siblings (comps w) parent l →
  ∃ w' final gone evs,
    updateChildComponents b parent children w = Returns tt w' ∧
    siblings (comps w') parent final ∧
    trace w' = trace w ++ evs ∧
    filter (λ e, isDestruction e = true) evs = (DeleteComponent <$> rev gone) ∧
    gone ⊆ l ∧
    (NoDup (idOf (comps w) <$> l) →
     gone = filter (λ c, idOf (comps w) c
                         ∉ (Some <$> (getStateId <$> childStatesOf children))) l) ∧
    (∀ c, c ∈ gone → comps w' !! c = None) ∧
    (∀ c, c ∈ l → c ∉ gone → c ∈ final ∧ comps w' !! c = comps w !! c) ∧
    (∀ q, q ≠ parent → q ∉ l → is_Some (comps w !! q) → comps w' !! q = comps w !! q) ∧
    idOf (comps w') parent = idOf (comps w) parent ∧
    parentOf (comps w') parent = parentOf (comps w) parent ∧
    Forall (λ c, c ∈ l ∨ comps w !! c = None) final ∧
    length final + destructions evs = length l + creations evs.
Proof.
  intros Htypes Hs.
  destruct (childrenOf_Some _ _ _ (siblings_children _ _ _ Hs)) as (P & HP & HL).
  destruct (reconcileChildren_effect b parent (childStatesOf children) l [] w l Htypes Hs)
    as (pool & cio & w1 & l1 & evs1 & Hrun & Hs1 & Hperm1 & Ht1 & Hq1 & Hf1 & Hid1
        & Hpar1 & Hfil1 & Hsub1 & Hcov1 & Hlen1 & Hnew1); [by rewrite app_nil_l|].
  simpl in Hrun, Hperm1.
  assert (NoDup (cio ++ pool)) as Hnd.
  { rewrite <- Hperm1. apply Hs1. }
  apply NoDup_app in Hnd as (Hndc & Hdisj & Hndp).
  destruct (deleteAllObjects_run w1 parent l1 pool Hs1 Hndp)
    as (w2 & Hdel & Hs2 & Ht2 & Hgone & Hframe & Hid2 & Hpar2).
  { intros x Hx. rewrite Hperm1. set_solver. }
  assert (cio ≡ₚ filter (λ x, x ∉ pool) l1) as Hcio.
  { rewrite Hperm1, filter_app.
    rewrite (filter_all _ cio), (filter_none _ pool), app_nil_r; [done | tauto | done]. }
  pose proof (zOrderPass_run w2 parent _ cio Hs2 Hcio) as Hz.
  assert (∀ q, q ∈ l → q ≠ parent ∧ is_Some (comps w !! q)) as Hold.
  { intros q Hq. split.
    - intros ->. by apply (siblings_not_self _ _ _ Hs).
    - apply (siblings_back _ _ _ Hs), parentOf_Some in Hq as (C & -> & _). eauto. }
  destruct (zOrderCalls_quiet cio) as [Hzd Hzc].
  destruct (deletions_loud (rev pool)) as [Hdd Hdc].
  eexists _, cio, pool, (evs1 ++ (DeleteComponent <$> rev pool) ++ zOrderCalls cio).
  split_and!.
  - unfold updateChildComponents.
    rewrite (bind_Returns _ _ _ _ _ (deref_Returns _ _ _ HP)). rewrite HL.
    rewrite (bind_Returns _ _ _ _ _ Hrun). simpl.
    rewrite (bind_Returns _ _ _ _ _ Hdel). exact Hz.
  - simpl. by apply (siblings_withChildren _ _ _ _ Hs2).
  - simpl. by rewrite Ht2, Ht1, <- !app_assoc.
  - rewrite !destructions_app, Hzd, Hdd, (quiet_no_destruction _ Hq1).
    by rewrite app_nil_r.
  - done.
  - done.
  - simpl. intros c Hc. destruct (Hold c (Hsub1 c Hc)) as [Hne _].
    rewrite lookup_withChildren_ne by done. by apply Hgone.
  - simpl. intros c Hc Hcp. destruct (Hold c Hc) as [Hne Hlive].
    split; [by destruct (Hcov1 c Hc)|].
    rewrite lookup_withChildren_ne by done.
    rewrite Hframe by done. by apply Hf1.
  - simpl. intros q Hq Hql Hlive.
    rewrite lookup_withChildren_ne by done.
    rewrite Hframe; [by apply Hf1 | done |]. intros Hin. by apply Hql, Hsub1.
  - simpl. by rewrite idOf_withChildren, Hid2.
  - simpl. by rewrite parentOf_withChildren, Hpar2.
  - done.
  - unfold destructions. rewrite !destructions_app, Hzd, Hdd, (quiet_no_destruction _ Hq1).
    rewrite !creations_app, Hzc, Hdc. simpl.
    rewrite app_nil_r, length_fmap, length_rev. lia.
Qed.

(** X11.  Removal.  When the children of the parent carry distinct
    identifiers, [updateChildComponents] deletes exactly the children whose
    identifier is the identifier of no new child state: its deletion calls
    are those children, from the last to the first, and they are gone from
    the store afterwards. *)
Theorem updateChildComponents_removes b parent children l w :
  (∀ t, t ∈ types b → createsChild t) →
  siblings (comps w) parent l →
  NoDup (idOf (comps w) <$> l) →
  ∃ w' evs,
    updateChildComponents b parent children w = Returns tt w' ∧
    trace w' = trace w ++ evs ∧
    filter (λ e, isDestruction e = true) evs
    = (DeleteComponent <$>
         rev (filter (λ c, idOf (comps w) c
                           ∉ (Some <$> (getStateId <$> childStatesOf children))) l)) ∧
    ∀ c, c ∈ l →
         idOf (comps w) c ∉ (Some <$> (getStateId <$> childStatesOf children)) →
         comps w' !! c = None.
Proof.
  intros Htypes Hs Hnd.
  destruct (updateChildComponents_effect b parent children l w Htypes Hs)
    as (w' & final & gone & evs & Hrun & _ & Ht & Hdel & _ & Hfil & Hgone & _).
  specialize (Hfil Hnd). subst gone. exists w', evs. split_and!; [done..|].
  intros c Hc Hid. apply Hgone. by apply list_elem_of_filter.
Qed.

(** X12.  Survival.  When the children of the parent carry distinct
    identifiers, every child whose identifier is the identifier of a new
    child state is still a child of the parent afterwards, and it is the same
    component: its pointer, identifier, parent and children are unchanged. *)
Theorem updateChildComponents_keeps b parent children l w :
  (∀ t, t ∈ types b → createsChild t) →
  siblings (comps w) parent l →
  NoDup (idOf (comps w) <$> l) →
  ∃ w' final,
    updateChildComponents b parent children w = Returns tt w' ∧
    childrenOf (comps w') parent = Some final ∧
    ∀ c, c ∈ l →
         idOf (comps w) c ∈ (Some <$> (getStateId <$> childStatesOf children)) →
         c ∈ final ∧ comps w' !! c = comps w !! c.
Proof.
  intros Htypes Hs Hnd.
  destruct (updateChildComponents_effect b parent children l w Htypes Hs)
    as (w' & final & gone & evs & Hrun & Hs' & _ & _ & _ & Hfil & _ & Hkeep & _).
  specialize (Hfil Hnd). subst gone. exists w', final.
  split_and!; [done | by apply Hs' |].
  intros c Hc Hid. apply Hkeep; [done|].
  intros [Hout _]%list_elem_of_filter. by apply Hout.
Qed.


(** X14.  The children after [updateChildComponents] are children from before
    or components that did not exist before, and their number is the number
    of children before, plus the handler creation calls, minus the deletion
    calls. *)
Theorem updateChildComponents_count b parent children l w :
  (∀ t, t ∈ types b → createsChild t) →
  siblings (comps w) parent l →
  ∃ w' final evs,
    updateChildComponents b parent children w = Returns tt w' ∧
    childrenOf (comps w') parent = Some final ∧
    trace w' = trace w ++ evs ∧
    Forall (λ c, c ∈ l ∨ comps w !! c = None) final ∧
    length final + destructions evs = length l + creations evs.
Proof.
  intros Htypes Hs.
  destruct (updateChildComponents_effect b parent children l w Htypes Hs)
    as (w' & final & gone & evs & Hrun & Hs' & Ht & _ & _ & _ & _ & _ & _ & _ & _
        & Hnew & Hlen).
  exists w', final, evs. split_and!; [done | by apply Hs' | done..].
Qed.

Lemma updateChildComponents_identifiers b parent children l w :
  (∀ t, t ∈ types b → createsChild t) →
  siblings (comps w) parent l →
  ∃ w' cio kept,
    updateChildComponents b parent children w = Returns tt w' ∧
    childrenOf (comps w') parent = Some cio ∧
    sublist kept (childStatesOf children) ∧
    idOf (comps w') <$> cio = Some <$> (getStateId <$> kept) ∧
    ((∀ s, s ∈ childStatesOf children → is_Some (getHandlerForState b s)) →
     kept = childStatesOf children).
Proof.
  intros Htypes Hs.
  destruct (childrenOf_Some _ _ _ (siblings_children _ _ _ Hs)) as (P & HP & HL).
  destruct (reconcileChildren_run b parent (childStatesOf children) l [] w l Htypes Hs)
    as (pool & cio & w1 & l1 & evs & kept & Hrun & Hs1 & Hperm1 & Ht1 & Hq1 & _
        & Hsub & Hids & Hall); [by rewrite app_nil_l|].
  simpl in Hrun, Hperm1.
  assert (NoDup (cio ++ pool)) as Hnd.
  { rewrite <- Hperm1. apply Hs1. }
  apply NoDup_app in Hnd as (Hndc & Hdisj & Hndp).
  destruct (deleteAllObjects_run w1 parent l1 pool Hs1 Hndp)
    as (w2 & Hdel & Hs2 & Ht2 & _ & Hframe & _).
  { intros x Hx. rewrite Hperm1. set_solver. }
  assert (cio ≡ₚ filter (λ x, x ∉ pool) l1) as Hcio.
  { rewrite Hperm1, filter_app.
    rewrite (filter_all _ cio), (filter_none _ pool), app_nil_r; [done | tauto | done]. }
  pose proof (zOrderPass_run w2 parent _ cio Hs2 Hcio) as Hz.
  assert (parent ∉ cio) as Hself.
  { intros Hin. apply (siblings_not_self _ _ _ Hs1). rewrite Hperm1. set_solver. }
  eexists _, cio, kept. split_and!.
  - unfold updateChildComponents.
    rewrite (bind_Returns _ _ _ _ _ (deref_Returns _ _ _ HP)). rewrite HL.
    rewrite (bind_Returns _ _ _ _ _ Hrun). simpl.
    rewrite (bind_Returns _ _ _ _ _ Hdel). exact Hz.
  - simpl. destruct (childrenOf_Some _ _ _ (siblings_children _ _ _ Hs2)) as (P2 & HP2 & _).
    unfold childrenOf. by rewrite (lookup_withChildren_eq _ _ _ _ HP2).
  - done.
  - rewrite <- Hids. simpl. apply Forall_fmap_ext_1, Forall_forall.
    intros c Hc. rewrite idOf_withChildren. unfold idOf.
    rewrite Hframe; [done | by intros -> | by apply Hdisj].
  - done.
Qed.

Lemma NoDup_fmap_Permutation_eq {B} (f : nat → B) (l1 : list nat) : ∀ l2,
  NoDup (f <$> l1) → f <$> l1 = f <$> l2 → l1 ≡ₚ l2 → l1 = l2.
Proof.
  induction l1 as [|x l1 IH]; intros l2 Hnd Heq Hperm.
  - by apply Permutation_nil_l in Hperm.
  - destruct l2 as [|y l2]; [done|]. rewrite !fmap_cons in Heq.
    injection Heq as Hxy Heq. rewrite fmap_cons in Hnd.
    apply NoDup_cons in Hnd as [Hx Hnd].
    assert (y = x) as ->.
    { assert (y ∈ x :: l1) as Hy by (rewrite Hperm; left).
      apply elem_of_cons in Hy as [->|Hy]; [done|]. exfalso. apply Hx.
      rewrite Hxy. apply list_elem_of_fmap. eauto. }
    f_equal. apply IH; [done | done |]. by apply Permutation_cons_inv in Hperm.
Qed.

(** X15.  Reconciling twice is reconciling once.  When every new child state
    has a handler and the states carry distinct, non-empty identifiers, a
    second [updateChildComponents] with the same states creates nothing and
    deletes nothing: it repeats the z-order calls and leaves the components
    exactly as the first call left them. *)
Theorem updateChildComponents_idempotent b parent children l w :
  (∀ t, t ∈ types b → createsChild t) →
  siblings (comps w) parent l →
  (∀ s, s ∈ childStatesOf children → is_Some (getHandlerForState b s)) →
  NoDup (getStateId <$> childStatesOf children) →
  (∀ s, s ∈ childStatesOf children → getStateId s ≠ "") →
  ∃ w' final,
    updateChildComponents b parent children w = Returns tt w' ∧
    childrenOf (comps w') parent = Some final ∧
    updateChildComponents b parent children w'
    = Returns tt (mkWorld (comps w') (trace w' ++ zOrderCalls final)).
Proof.
  intros Htypes Hs Hhandlers Hnd Hne.
  destruct (updateChildComponents_effect b parent children l w Htypes Hs)
    as (w' & final & gone & evs & Hrun & Hs' & _).
  destruct (updateChildComponents_identifiers b parent children l w Htypes Hs)
    as (w'' & cio & kept & Hrun' & Hch & _ & Hids & Hall).
  rewrite Hrun in Hrun'. injection Hrun' as <-.
  rewrite (siblings_children _ _ _ Hs') in Hch. injection Hch as <-.
  rewrite (Hall Hhandlers) in Hids.
  exists w', final. split_and!; [done | by apply Hs' |].
  destruct (childrenOf_Some _ _ _ (siblings_children _ _ _ Hs')) as (P & HP & HL).
  destruct (reconcileChildren_reuse b parent (childStatesOf children) final [] w')
    as (picked & Hloop & Hperm & Hpids).
  - rewrite Hids. apply NoDup_fmap; [|done]. by intros ?? [= ->].
  - intros c Hc Hid.
    assert (Some "" ∈ idOf (comps w') <$> final) as Hin.
    { rewrite <- Hid. apply list_elem_of_fmap. eauto. }
    rewrite Hids in Hin. apply list_elem_of_fmap in Hin as (i & [= Hi] & Hin).
    apply list_elem_of_fmap in Hin as (s & -> & Hin). by apply (Hne s).
  - by rewrite Hids.
  - assert (picked = final) as ->.
    { apply (NoDup_fmap_Permutation_eq (idOf (comps w'))); [| by rewrite Hpids | done].
      rewrite Hpids. apply NoDup_fmap; [|done]. by intros ?? [= ->]. }
    unfold updateChildComponents.
    rewrite (bind_Returns _ _ _ _ _ (deref_Returns _ _ _ HP)). rewrite HL.
    rewrite (bind_Returns _ _ _ _ _ Hloop). run.
    rewrite (zOrderPass_run w' parent final final Hs' (reflexivity _)).
    by rewrite (withChildren_id _ _ _ (siblings_children _ _ _ Hs')).
Qed.

(** ** A handler that returns null inside the loop *)

Lemma createNewComponent_null t s parent w h' :
  addNewComponentFromState t s parent (comps w) = (None, h') →
  createNewComponent t s parent w
  = Crash (mkWorld h' (trace w ++ [AddNewComponent (type t) s parent None;
                                   AssertionFailure])).
Proof.
  intros Hadd. unfold createNewComponent, callAddNewComponentFromState. run.
  rewrite Hadd. simpl. by rewrite <- app_assoc.
Qed.

(** X16.  When a new child state matches no pool member and its handler
    returns null, the turn of the loop reports the failed assertion and then
    dereferences the null pointer.  [updateChildComponents] ends there: the
    states after it are not processed, and neither a deletion nor a z-order
    call has been made. *)
Theorem updateChildComponents_null_component b parent s t pool cio w h' :
  getHandlerForState b s = Some t →
  (∀ c, c ∈ pool → is_Some (comps w !! c)) →
  (∀ c, c ∈ pool → idOf (comps w) c ≠ Some (getStateId s)) →
  addNewComponentFromState t s (Some parent) (comps w) = (None, h') →
  ∃ wc evs,
    reconcileChild b parent s pool cio w = Crash wc ∧
    comps wc = h' ∧ trace wc = trace w ++ evs ∧
    last evs = Some AssertionFailure ∧
    Forall (λ e, isDestruction e = false ∧ isZOrder e = false) evs ∧
    (∀ children before after w0 P,
       comps w0 !! parent = Some P →
       childStatesOf children = before ++ s :: after →
       reconcileChildren b parent before (childComponentList P) [] w0
         = Returns (pool, cio) w →
       updateChildComponents b parent children w0 = Crash wc).
Proof.
  intros Hh Hlive Hnone Hadd.
  destruct (jassert_comps (isNotEmpty (getStateId s)) w) as (w1 & Hj & Hc1 & Ht1).
  assert (removeComponentWithID pool (getStateId s) w = Returns (None, pool) w1) as Hrem.
  { unfold removeComponentWithID. rewrite (bind_Returns _ _ _ _ _ Hj).
    destruct (removeComponentWithID_from_scan (length pool) pool (getStateId s) w1)
      as [(j & c & _ & Hjc & Hid & _)|[_ Hrun]]; [done | by rewrite Hc1 | | done].
    exfalso. rewrite Hc1 in Hid. apply (Hnone c); [|done].
    by eapply list_elem_of_lookup_2. }
  rewrite <- Hc1 in Hadd.
  pose proof (createNewComponent_null t s (Some parent) w1 h' Hadd) as Hnew.
  assert (reconcileChild b parent s pool cio w
          = Crash (mkWorld h' (trace w1 ++ [AddNewComponent (type t) s (Some parent) None;
                                            AssertionFailure]))) as Hstep.
  { unfold reconcileChild. rewrite (bind_Returns _ _ _ _ _ Hrem). simpl. rewrite Hh.
    by rewrite (bind_Crash _ _ _ _ (bind_Crash _ _ _ _ Hnew)). }
  eexists. eexists. split_and!.
  - exact Hstep.
  - done.
  - simpl. rewrite Ht1, <- app_assoc. reflexivity.
  - by rewrite last_app.
  - apply Forall_app. split; [destruct (isNotEmpty _)|]; by repeat constructor.
  - intros children before after w0 P HP Hsplit Hbefore.
    unfold updateChildComponents.
    rewrite (bind_Returns _ _ _ _ _ (deref_Returns _ _ _ HP)).
    rewrite Hsplit. apply bind_Crash.
    rewrite reconcileChildren_app, (bind_Returns _ _ _ _ _ Hbefore). simpl.
    by apply bind_Crash.
Qed.

(** ** The further properties on the sample data *)

Lemma getHandlerForState_first_match_sample :
  (∃ i, types sampleBuilder !! i = Some (plainHandler "Button" (Some 7)) ∧
        type (plainHandler "Button" (Some 7)) = getType (sampleNode 3) ∧
        ∀ j t', j < i → types sampleBuilder !! j = Some t' → type t' ≠ getType (sampleNode 3))
  ∧ (∀ t, t ∈ types sampleBuilder → type t ≠ getType (sampleNode 6)).
Proof.
  split.
  - apply (proj1 (getHandlerForState_first_match sampleBuilder (sampleNode 3))).
    vm_compute. reflexivity.
  - apply (proj1 (proj2 (getHandlerForState_first_match sampleBuilder (sampleNode 6)))).
    vm_compute. reflexivity.
Defined.

Lemma registerTypeHandler_frame_sample :
  registerTypeHandler sampleBuilder (Some (otherHandler "Gadget")) sampleWorld
  = Returns registeredBuilder sampleWorld ∧
  getHandlerForState registeredBuilder (sampleNode 3)
  = getHandlerForState sampleBuilder (sampleNode 3).
Proof.
  assert (registerTypeHandler sampleBuilder (Some (otherHandler "Gadget")) sampleWorld
          = Returns registeredBuilder sampleWorld) as Hreg by reflexivity.
  split; [exact Hreg|].
  destruct (registerTypeHandler_frame sampleBuilder (otherHandler "Gadget") sampleWorld
              registeredBuilder sampleWorld Hreg) as (_ & _ & _ & _ & _ & _ & Hother & _).
  apply Hother. vm_compute. intros H. discriminate H.
Defined.

Lemma createNewComponent_broken_contract_sample :
  (∃ wc, createNewComponent (nullHandler "Button") (sampleNode 5) (Some 101) sampleWorld
         = Crash wc)
  ∧ (∃ c w', createNewComponent (strayHandler "Button") (sampleNode 5) (Some 101) sampleWorld
             = Returns c w').
Proof.
  split.
  - eexists.
    apply (proj1 (createNewComponent_broken_contract (nullHandler "Button") (sampleNode 5)
                    (Some 101) sampleWorld)).
    reflexivity.
  - eexists _, _.
    eapply (proj2 (createNewComponent_broken_contract (strayHandler "Button") (sampleNode 5)
                     (Some 101) sampleWorld)).
    + reflexivity.
    + vm_compute. reflexivity.
    + discriminate.
Defined.

Lemma getManagedComponent_once_sample :
  ∃ w1,
    getManagedComponent freshBuilder emptyWorld
    = Returns (Some 0, withComponent freshBuilder (Some 0)) w1 ∧
    trace w1 = trace emptyWorld
               ++ [AddNewComponent "Panel" (sampleNode 0) None (Some 0)] ∧
    idOf (comps w1) 0 = Some (getStateId (sampleNode 0)) ∧
    parentOf (comps w1) 0 = Some None ∧
    getManagedComponent (withComponent freshBuilder (Some 0)) w1
    = Returns (Some 0, withComponent freshBuilder (Some 0)) w1.
Proof.
  eapply (getManagedComponent_once freshBuilder (plainHandler "Panel" (Some 7)) emptyWorld 0).
  - reflexivity.
  - vm_compute. reflexivity.
  - vm_compute. reflexivity.
  - vm_compute. reflexivity.
  - reflexivity.
Defined.

Lemma getManagedComponent_retry_sample :
  ∃ b' w2,
    registerTypeHandler (newComponentBuilder 7 (sampleNode 0))
      (Some (plainHandler "Panel" None))
      (mkWorld ∅ [AssertionFailure; AssertionFailure])
    = Returns b' (mkWorld ∅ [AssertionFailure; AssertionFailure]) ∧
    getManagedComponent b' (mkWorld ∅ [AssertionFailure; AssertionFailure])
    = Returns (Some 0, withComponent b' (Some 0)) w2.
Proof.
  edestruct (getManagedComponent_retry 7 (sampleNode 0) emptyWorld
               (plainHandler "Panel" None) 0)
    as (_ & b' & w2 & Hreg & Hroot & _).
  - reflexivity.
  - vm_compute. reflexivity.
  - vm_compute. reflexivity.
  - vm_compute. reflexivity.
  - reflexivity.
  - exists b', w2. split; [exact Hreg | exact Hroot].
Defined.

Lemma findComponentWithID_sound_complete_sample :
  descendant (comps sampleWorld) 100 104 ∧ idOf (comps sampleWorld) 104 = Some "b1".
Proof.
  apply (findComponentWithID_sound_complete 3 "b1" 100 sampleWorld (Some 104) sampleWorld).
  vm_compute. reflexivity.
Defined.

Lemma sample_notification :
  updateComponent 4 3 sampleBuilder (sampleNode 8) sampleWorld
  = Returns sampleBuilder notifiedWorld.
Proof. vm_compute. reflexivity. Qed.

Lemma updateComponent_calls_sample :
  ∃ evs, trace notifiedWorld = trace sampleWorld ++ evs ∧
         Forall (λ e, isAssertion e = true ∨ isCreation e = true ∨ isUpdate e = true) evs ∧
         length (filter (λ e, isCreation e = true) evs) ≤ 1 ∧
         length (filter (λ e, isUpdate e = true) evs) ≤ 1 ∧
         (component sampleBuilder ≠ None → filter (λ e, isCreation e = true) evs = []).
Proof.
  apply (updateComponent_calls 4 3 sampleBuilder (sampleNode 8) sampleWorld sampleBuilder).
  exact sample_notification.
Defined.

Lemma updateComponent_builder_sample :
  this sampleBuilder = this sampleBuilder ∧ state sampleBuilder = state sampleBuilder ∧
  types sampleBuilder = types sampleBuilder ∧
  imageProvider sampleBuilder = imageProvider sampleBuilder ∧
  (component sampleBuilder ≠ None → sampleBuilder = sampleBuilder) ∧
  (component sampleBuilder = None →
   component sampleBuilder = None ∧ comps notifiedWorld = comps sampleWorld).
Proof.
  apply (updateComponent_builder 4 3 sampleBuilder (sampleNode 8) sampleWorld).
  exact sample_notification.
Defined.

Lemma imageProvider_kept_sample :
  getImageProvider (setImageProvider sampleBuilder (Some 9)) = Some 9 ∧
  getImageProvider (setImageProvider registeredBuilder (Some 9)) = Some 9.
Proof.
  destruct (imageProvider_kept sampleBuilder (Some 9) (otherHandler "Gadget") sampleWorld
              (setImageProvider registeredBuilder (Some 9)) sampleWorld 4 3 (sampleNode 8)
              (setImageProvider registeredBuilder (Some 9))
              (mkWorld sampleComps [UpdateComponent "Panel" 102 (sampleNode 2)]))
    as (H0 & _ & H2 & _).
  - reflexivity.
  - vm_compute. reflexivity.
  - split; [exact H0 | exact H2].
Defined.

Lemma sample_identifiers_NoDup : NoDup (idOf (comps sampleWorld) <$> [103; 104]).
Proof. vm_compute. compute_done. Qed.

Lemma updateChildComponents_removes_sample :
  ∃ w' evs,
    updateChildComponents sampleBuilder 101 (sampleNode 2) sampleWorld = Returns tt w' ∧
    trace w' = trace sampleWorld ++ evs ∧
    filter (λ e, isDestruction e = true) evs
    = (DeleteComponent <$>
         rev (filter (λ c, idOf (comps sampleWorld) c
                           ∉ (Some <$> (getStateId <$> childStatesOf (sampleNode 2))))
                [103; 104])) ∧
    ∀ c, c ∈ [103; 104] →
         idOf (comps sampleWorld) c ∉ (Some <$> (getStateId <$> childStatesOf (sampleNode 2))) →
         comps w' !! c = None.
Proof.
  apply (updateChildComponents_removes sampleBuilder 101 (sampleNode 2) [103; 104]
           sampleWorld).
  - exact sampleTypes_createChild.
  - exact sample_siblings.
  - exact sample_identifiers_NoDup.
Defined.

Lemma updateChildComponents_keeps_sample :
  ∃ w' final,
    updateChildComponents sampleBuilder 101 (sampleNode 1) sampleWorld = Returns tt w' ∧
    childrenOf (comps w') 101 = Some final ∧
    ∀ c, c ∈ [103; 104] →
         idOf (comps sampleWorld) c ∈ (Some <$> (getStateId <$> childStatesOf (sampleNode 1))) →
         c ∈ final ∧ comps w' !! c = comps sampleWorld !! c.
Proof.
  apply (updateChildComponents_keeps sampleBuilder 101 (sampleNode 1) [103; 104]
           sampleWorld).
  - exact sampleTypes_createChild.
  - exact sample_siblings.
  - exact sample_identifiers_NoDup.
Defined.


Lemma updateChildComponents_count_sample :
  ∃ w' final evs,
    updateChildComponents sampleBuilder 101 (sampleNode 2) sampleWorld = Returns tt w' ∧
    childrenOf (comps w') 101 = Some final ∧
    trace w' = trace sampleWorld ++ evs ∧
    Forall (λ c, c ∈ [103; 104] ∨ comps sampleWorld !! c = None) final ∧
    length final + destructions evs = length [103; 104] + creations evs.
Proof.
  apply (updateChildComponents_count sampleBuilder 101 (sampleNode 2) [103; 104]
           sampleWorld).
  - exact sampleTypes_createChild.
  - exact sample_siblings.
Defined.

Lemma updateChildComponents_idempotent_sample :
  ∃ w' final,
    updateChildComponents sampleBuilder 101 (sampleNode 1) sampleWorld = Returns tt w' ∧
    childrenOf (comps w') 101 = Some final ∧
    updateChildComponents sampleBuilder 101 (sampleNode 1) w'
    = Returns tt (mkWorld (comps w') (trace w' ++ zOrderCalls final)).
Proof.
  apply (updateChildComponents_idempotent sampleBuilder 101 (sampleNode 1) [103; 104]
           sampleWorld).
  - exact sampleTypes_createChild.
  - exact sample_siblings.
  - intros s Hs. vm_compute in Hs.
    repeat (apply elem_of_cons in Hs as [->|Hs]);
      [vm_compute; eexists; reflexivity.. | by apply elem_of_nil in Hs].
  - vm_compute. compute_done.
  - intros s Hs. vm_compute in Hs.
    repeat (apply elem_of_cons in Hs as [->|Hs]);
      [vm_compute; intros H; discriminate H.. | by apply elem_of_nil in Hs].
Defined.

Lemma updateChildComponents_null_component_sample :
  ∃ wc, updateChildComponents nullBuilder 101 (sampleNode 2) sampleWorld = Crash wc.
Proof.
  destruct (updateChildComponents_null_component nullBuilder 101 (sampleNode 5)
              (nullHandler "Button") [103; 104] []
              (mkWorld sampleComps [AssertionFailure]) sampleComps)
    as (wc & evs & _ & _ & _ & _ & _ & Hwhole).
  - vm_compute. reflexivity.
  - intros c Hc.
    repeat (apply elem_of_cons in Hc as [->|Hc]);
      [vm_compute; eexists; reflexivity.. | by apply elem_of_nil in Hc].
  - intros c Hc.
    repeat (apply elem_of_cons in Hc as [->|Hc]);
      [vm_compute; discriminate.. | by apply elem_of_nil in Hc].
  - reflexivity.
  - exists wc.
    apply (Hwhole (sampleNode 2) [sampleNode 6] [sampleNode 7] sampleWorld
             (mkComponent "left" (Some 100) [103; 104])).
    + vm_compute. reflexivity.
    + vm_compute. reflexivity.
    + vm_compute. reflexivity.
Defined.
